(** * The Lanczos driver of hessian_eigenthings

    A shallow embedding of [hessian_eigenthings/lanczos.py]: the function
    [lanczos], its closure [_scipy_apply], and the values that cross the
    boundary between numpy arrays and torch tensors.

    Python integers are [Z]; floating-point values are an abstract type
    [scalar]; exceptions and observable effects (warnings, calls of the
    operator, draws from numpy's global random state, the call of scipy's
    [eigsh]) are threaded through an exception-and-state monad whose state
    records them in order. *)

From Stdlib Require Import ZArith List String Bool Lia.
Import ListNotations.
Local Open Scope Z_scope.

(** ** Numeric values *)

(** Floating-point numbers are kept abstract.  [round16] is the value a
    number takes when it is cast to the 16-bit format. *)
Class Numeric := {
  scalar : Type;
  round16 : scalar -> scalar
}.

Inductive dtype := float16 | float32 | float64.

Inductive device := cpu_device | cuda_device.

Section Arrays.
Context `{Numeric}.

(** A one-dimensional [numpy.ndarray]: always in host memory. *)
Record ndarray := mk_ndarray {
  a_dtype : dtype;
  a_data : list scalar
}.

(** A one-dimensional [torch.Tensor]. *)
Record tensor := mk_tensor {
  t_device : device;
  t_dtype : dtype;
  t_data : list scalar
}.

(** A two-dimensional [numpy.ndarray], row by row, with its shape. *)
Record ndarray2 := mk_ndarray2 {
  m_shape : nat * nat;
  m_rows : list (list scalar)
}.

(** [torch.from_numpy(x)] *)
Definition from_numpy (x : ndarray) : tensor :=
  {| t_device := cpu_device; t_dtype := a_dtype x; t_data := a_data x |}.

(** [x.cuda()] (an accelerator is taken to be present) *)
Definition cuda (x : tensor) : tensor :=
  {| t_device := cuda_device; t_dtype := t_dtype x; t_data := t_data x |}.

(** [x.cpu()] *)
Definition cpu (x : tensor) : tensor :=
  {| t_device := cpu_device; t_dtype := t_dtype x; t_data := t_data x |}.

(** [x.numpy()], used in the source on host tensors only; tensors that
    require grad, on which it raises, are not part of this model *)
Definition numpy (x : tensor) : ndarray :=
  {| a_dtype := t_dtype x; a_data := t_data x |}.

(** The cast to the 16-bit format, on whichever vector type it is applied
    to (the source applies [maybe_fp16] to tensors and to arrays). *)
Class Castable (V : Type) := half : V -> V.

#[export] Instance tensor_castable : Castable tensor :=
  fun x => {| t_device := t_device x; t_dtype := float16;
              t_data := map round16 (t_data x) |}.

#[export] Instance ndarray_castable : Castable ndarray :=
  fun x => {| a_dtype := float16; a_data := map round16 (a_data x) |}.

(** Modelled from the spec: [utils.maybe_fp16], of the module
    [hessian_eigenthings.utils] that [lanczos.py] imports and that is not
    among the sources.  The spec (4.2): "if use_reduced_precision is set,
    casts to reduced precision"; nothing is done to the vector otherwise. *)
Definition maybe_fp16 {V : Type} `{Castable V} (vec : V) (fp16 : bool) : V :=
  if fp16 then half vec else vec.

(** Column [j] of a matrix given by its rows. *)
Definition column (j : nat) (rows : list (list scalar)) : list scalar :=
  flat_map (fun r => match nth_error r j with
                     | Some x => [x]
                     | None => []
                     end) rows.

(** [m.T] on a two-dimensional array: row [j] of the result is column [j]
    of [m]. *)
Definition T (m : ndarray2) : ndarray2 :=
  {| m_shape := (snd (m_shape m), fst (m_shape m));
     m_rows := map (fun j => column j (m_rows m)) (seq 0 (snd (m_shape m))) |}.

(** [m[i][j]], when it exists *)
Definition entry (m : ndarray2) (i j : nat) : option scalar :=
  match nth_error (m_rows m) i with
  | Some r => nth_error r j
  | None => None
  end.

(** [m] has [n] rows of [k] entries each. *)
Definition has_shape (n k : nat) (m : ndarray2) : Prop :=
  m_shape m = (n, k) /\
  List.length (m_rows m) = n /\
  Forall (fun r => List.length r = k) (m_rows m).

(** ** The operator *)

(** What [operator.size] can be: an [int], a sequence of integers (a
    tuple, a list, a [torch.Size]), or a value that has no [[0]]. *)
Inductive size_attr :=
| SizeInt (n : Z)
| SizeSeq (dims : list Z)
| SizeOther.

(** An operator object whose fields are a state of type [St]: reading
    [operator.size], and calling [operator.apply(x)], which returns a
    tensor or raises an exception (given by its text) and may change the
    operator's own fields. *)
Record Operator (St : Type) := mk_Operator {
  size : St -> size_attr;
  apply : St -> tensor -> (string + tensor) * St
}.

(** ** scipy *)

(** A [scipy.sparse.linalg.LinearOperator] built from a shape and a
    product: its shape and its dtype.  The product itself is the closure
    the scipy code is run against, see [run_client] below. *)
Record LinearOperator := mk_LinearOperator {
  shape : Z * Z;
  dtype_of : dtype
}.

(** The keyword arguments of [scipy.sparse.linalg.eigsh].  [v0] is [None]
    when it is not passed. *)
Record eigsh_args := mk_eigsh_args {
  A : LinearOperator;
  k : Z;
  which : string;
  maxiter : Z;
  tol : scalar;
  ncv : Z;
  v0 : option ndarray;
  return_eigenvectors : bool
}.

(** A run of scipy code that was given the product as a callback, seen
    from its caller: it asks for products one at a time, each answer
    deciding how it goes on, and ends with a result or with an exception
    of its own.  Both the constructor of [LinearOperator] (which, given no
    dtype, finds it by a product with a zero vector) and [eigsh] are such
    runs. *)
Inductive client (R : Type) :=
| Return (r : R)
| Raise (e : string)
| Matvec (x : ndarray) (next : ndarray -> client R).

End Arrays.

Arguments Return {_ R} _.
Arguments Raise {_ R} _.
Arguments Matvec {_ R} _ _.

Arguments size {_ St} _ _.
Arguments apply {_ St} _ _ _.

(** ** The libraries the driver runs against *)

(** numpy's global random state with the generator of one number; the
    constructor of scipy's [LinearOperator]; and scipy's [eigsh], with the
    hidden state that its starting vector comes from when no [v0] is
    passed. *)
Class Runtime `{Numeric} := {
  Rng : Type;
  rng_next : Rng -> scalar * Rng;
  Entropy : Type;
  scipy_LinearOperator : Z * Z -> client LinearOperator;
  scipy_eigsh : eigsh_args -> Entropy -> client (list scalar * ndarray2) * Entropy
}.

(** ** Exceptions, effects, and the monad *)

Inductive exn :=
| TypeError_not_subscriptable      (* [x[0]] on a value without indexing *)
| IndexError_out_of_range          (* [x[0]] on an empty sequence *)
| ValueError_negative_dimensions   (* [np.random.rand(n)], [n < 0] *)
| OperatorException (e : string)   (* raised inside [operator.apply] *)
| SolverException (e : string).    (* raised by scipy's own code *)

(** The failure the spec calls InvalidOperatorShape: the exception of
    [operator.size[0]]. *)
Definition InvalidOperatorShape (e : exn) : bool :=
  match e with
  | TypeError_not_subscriptable | IndexError_out_of_range => true
  | _ => false
  end.

Section Driver.
Context `{Runtime}.

Inductive event :=
| Warned (msg : string)
| Applied (x : tensor) (out : string + tensor)
| Rand (n : Z)
| Eigsh (args : eigsh_args).

(** The state a call runs in: the operator's fields, numpy's random
    state, the solver's hidden state, and the events so far, latest
    first. *)
Record world (St : Type) := mk_world {
  w_operator : St;
  w_np_random : Rng;
  w_arpack : Entropy;
  w_events : list event
}.
Arguments mk_world {St}.
Arguments w_operator {St}.
Arguments w_np_random {St}.
Arguments w_arpack {St}.
Arguments w_events {St}.

Definition log {St} (ev : event) (w : world St) : world St :=
  mk_world (w_operator w) (w_np_random w) (w_arpack w) (ev :: w_events w).

Definition set_operator {St} (st : St) (w : world St) : world St :=
  mk_world st (w_np_random w) (w_arpack w) (w_events w).

Definition set_np_random {St} (g : Rng) (w : world St) : world St :=
  mk_world (w_operator w) g (w_arpack w) (w_events w).

Definition set_arpack {St} (s : Entropy) (w : world St) : world St :=
  mk_world (w_operator w) (w_np_random w) s (w_events w).

Definition M (St A : Type) : Type := world St -> (exn + A) * world St.

Definition ret {St A} (a : A) : M St A := fun w => (inr a, w).

Definition raise {St A} (e : exn) : M St A := fun w => (inl e, w).

Definition bind {St A B} (c : M St A) (f : A -> M St B) : M St B :=
  fun w => match c w with
           | (inr a, w') => f a w'
           | (inl e, w') => (inl e, w')
           end.

Local Notation "x <- c ;; f" := (bind c (fun x => f))
  (at level 61, c at next level, right associativity).

(** [warn(msg)]: the warning is recorded and execution goes on. *)
Definition warn {St} (msg : string) : M St unit :=
  fun w => (inr tt, log (Warned msg) w).

(** [n] successive numbers of the generator. *)
Fixpoint draw (n : nat) (g : Rng) : list scalar * Rng :=
  match n with
  | O => ([], g)
  | S n' => let (x, g1) := rng_next g in
            let (xs, g2) := draw n' g1 in
            (x :: xs, g2)
  end.

(** [np.random.rand(n)]: a float64 array of [n] numbers drawn from the
    global random state; a negative [n] is refused. *)
Definition np_random_rand {St} (n : Z) : M St ndarray :=
  fun w =>
    if n <? 0 then (inl ValueError_negative_dimensions, w)
    else let (xs, g) := draw (Z.to_nat n) (w_np_random w) in
         (inr (mk_ndarray float64 xs), log (Rand n) (set_np_random g w)).

(** [operator.apply(x)]: one call of the operator on its current fields. *)
Definition operator_apply {St} (operator : Operator St) (x : tensor)
  : M St tensor :=
  fun w =>
    let (out, st) := apply operator (w_operator w) x in
    let w' := log (Applied x out) (set_operator st w) in
    match out with
    | inl e => (inl (OperatorException e), w')
    | inr y => (inr y, w')
    end.

(** Lines 55-58 on the value of [operator.size]: the value itself if it
    is an [int], else its element [[0]]. *)
Definition size_of (s : size_attr) : exn + Z :=
  match s with
  | SizeInt n => inr n
  | SizeSeq (n :: _) => inr n
  | SizeSeq [] => inl IndexError_out_of_range
  | SizeOther => inl TypeError_not_subscriptable
  end.

Definition operator_size {St} (operator : Operator St) : M St Z :=
  fun w => (size_of (size operator (w_operator w)), w).

(** A declared size is usable when it is an integer or a sequence that
    has a first element. *)
Definition usable_size (s : size_attr) : bool :=
  match s with
  | SizeInt _ => true
  | SizeSeq (_ :: _) => true
  | SizeSeq [] => false
  | SizeOther => false
  end.

(** Lines 69-72 of [_scipy_apply]: the array the solver hands over, as the
    tensor the operator is applied to. *)
Definition to_operator_form (use_gpu fp16 : bool) (x : ndarray) : tensor :=
  let x := from_numpy x in
  let x := maybe_fp16 x fp16 in
  if use_gpu then cuda x else x.

(** Lines 74-75 of [_scipy_apply]: the operator's result, as the array
    handed back to the solver. *)
Definition to_host_form (fp16 : bool) (out : tensor) : ndarray :=
  let out := maybe_fp16 out fp16 in
  numpy (cpu out).

(** Lines 68-76: the closure over [operator], [use_gpu] and [fp16] that is
    given to scipy as the matrix-vector product. *)
Definition _scipy_apply {St} (operator : Operator St) (use_gpu fp16 : bool)
    (x : ndarray) : M St ndarray :=
  let x := to_operator_form use_gpu fp16 x in
  out <- operator_apply operator x ;;
  ret (to_host_form fp16 out).

(** A run of scipy code against the callback [matvec]: an exception of
    the callback ends the run, nothing in scipy catches it. *)
Fixpoint run_client {St R} (matvec : ndarray -> M St ndarray) (t : client R)
  : M St R :=
  match t with
  | Return r => ret r
  | Raise e => raise (SolverException e)
  | Matvec x next => y <- matvec x ;; run_client matvec (next y)
  end.

(** [ScipyLinearOperator(shape, matvec)], line 78. *)
Definition ScipyLinearOperator {St} (shape : Z * Z)
    (matvec : ndarray -> M St ndarray) : M St LinearOperator :=
  run_client matvec (scipy_LinearOperator shape).

(** [eigsh(A=scipy_op, ...)] where [scipy_op] has the product [matvec]:
    the call is recorded, the solver's hidden state advances, and the run
    it decides on is carried out. *)
Definition eigsh {St} (matvec : ndarray -> M St ndarray) (args : eigsh_args)
  : M St (list scalar * ndarray2) :=
  fun w =>
    let (t, s) := scipy_eigsh args (w_arpack w) in
    run_client matvec t (log (Eigsh args) (set_arpack s w)).

(** The local variables of [lanczos] when line 85 is reached. *)
Record locals := mk_locals {
  l_size : Z;
  l_num_lanczos_vectors : Z;
  l_scipy_op : LinearOperator;
  l_init_vec : ndarray
}.

Definition advisory : string :=
  "[lanczos] number of lanczos vectors should usually be > 2*num_eigenthings".

(** Lines 55-84 of [lanczos], up to the call of [eigsh].  [init_vec] is
    [None], a tensor ([inr]) or already an array ([inl]). *)
Definition lanczos_setup {St} (operator : Operator St)
    (num_eigenthings : Z) (num_lanczos_vectors : option Z)
    (init_vec : option (ndarray + tensor)) (use_gpu fp16 : bool)
  : M St locals :=
  size <- operator_size operator ;;
  let shape := (size, size) in
  let num_lanczos_vectors :=
    match num_lanczos_vectors with
    | None => Z.min (2 * num_eigenthings) (size - 1)
    | Some n => n
    end in
  _ <- (if num_lanczos_vectors <? 2 * num_eigenthings
        then warn advisory else ret tt) ;;
  scipy_op <- ScipyLinearOperator shape
                (_scipy_apply operator use_gpu fp16) ;;
  init_vec <- match init_vec with
              | None => np_random_rand size
              | Some (inr t) => ret (numpy (cpu t))
              | Some (inl a) => ret a
              end ;;
  let init_vec := maybe_fp16 init_vec fp16 in
  ret (mk_locals size num_lanczos_vectors scipy_op init_vec).

(** Lines 85-94: the call of [eigsh], which passes no [v0], and the
    result with the eigenvectors transposed. *)
Definition lanczos_solve {St} (operator : Operator St)
    (num_eigenthings : Z) (which : string) (max_steps : Z) (tol : scalar)
    (use_gpu fp16 : bool) (l : locals) : M St (list scalar * ndarray2) :=
  r <- eigsh (_scipy_apply operator use_gpu fp16)
         {| A := l_scipy_op l;
            k := num_eigenthings;
            which := which;
            maxiter := max_steps;
            tol := tol;
            ncv := l_num_lanczos_vectors l;
            v0 := None;
            return_eigenvectors := true |} ;;
  let '(eigenvals, eigenvecs) := r in
  ret (eigenvals, T eigenvecs).

(** [lanczos], lines 11-94, every argument given (the defaults of the
    signature are the caller's business). *)
Definition lanczos {St} (operator : Operator St)
    (num_eigenthings : Z) (which : string) (max_steps : Z) (tol : scalar)
    (num_lanczos_vectors : option Z) (init_vec : option (ndarray + tensor))
    (use_gpu fp16 : bool) : M St (list scalar * ndarray2) :=
  l <- lanczos_setup operator num_eigenthings num_lanczos_vectors
         init_vec use_gpu fp16 ;;
  lanczos_solve operator num_eigenthings which max_steps tol use_gpu fp16 l.

(** The keyword arguments of the call of [eigsh] at lines 85-93. *)
Definition solver_args (num_eigenthings : Z) (which : string)
    (max_steps : Z) (tol : scalar) (l : locals) : eigsh_args :=
  {| A := l_scipy_op l;
     k := num_eigenthings;
     which := which;
     maxiter := max_steps;
     tol := tol;
     ncv := l_num_lanczos_vectors l;
     v0 := None;
     return_eigenvectors := true |}.

(** The count of basis vectors in use after lines 61-62. *)
Definition vectors_in_use (num_eigenthings size : Z)
    (num_lanczos_vectors : option Z) : Z :=
  match num_lanczos_vectors with
  | None => Z.min (2 * num_eigenthings) (size - 1)
  | Some n => n
  end.

(** The array [init_vec] is before line 84, given what [np.random.rand]
    would draw from the random state [g]. *)
Definition init_vec_array (init_vec : option (ndarray + tensor)) (size : Z)
    (g : Rng) : ndarray :=
  match init_vec with
  | None => mk_ndarray float64 (fst (draw (Z.to_nat size) g))
  | Some (inr t) => numpy (cpu t)
  | Some (inl a) => a
  end.

(** *** What a list of events shows (events are kept latest first) *)

Definition is_applied (ev : event) : bool :=
  match ev with Applied _ _ => true | _ => false end.

(** The number of calls of [operator.apply]. *)
Definition apply_calls (evs : list event) : nat :=
  List.length (filter is_applied evs).

(** The inputs of the calls of [operator.apply], latest first. *)
Definition applied_inputs (evs : list event) : list tensor :=
  flat_map (fun ev => match ev with Applied x _ => [x] | _ => [] end) evs.

(** The warnings. *)
Definition warnings (evs : list event) : list string :=
  flat_map (fun ev => match ev with Warned m => [m] | _ => [] end) evs.

(** The calls of [eigsh], by their arguments. *)
Definition solver_calls (evs : list event) : list eigsh_args :=
  flat_map (fun ev => match ev with Eigsh a => [a] | _ => [] end) evs.

(** The calls of [np.random.rand], by their argument. *)
Definition rand_draws (evs : list event) : list Z :=
  flat_map (fun ev => match ev with Rand n => [n] | _ => [] end) evs.

(** The operator's fields after it has been applied to the inputs [xs]
    (latest first, so the last of [xs] is applied first), whatever the
    calls returned or raised. *)
Definition replay {St} (operator : Operator St) (xs : list tensor) (st : St)
  : St :=
  fold_right (fun x st => snd (apply operator st x)) st xs.

(** The events of [w'] are those of [w] and, after them, [evs]. *)
Definition emitted {St} (w w' : world St) (evs : list event) : Prop :=
  w_events w' = evs ++ w_events w.

End Driver.

Arguments mk_world {_ _ St}.
Arguments w_operator {_ _ St}.
Arguments w_np_random {_ _ St}.
Arguments w_arpack {_ _ St}.
Arguments w_events {_ _ St}.

Notation "x <- c ;; f" := (bind c (fun x => f))
  (at level 61, c at next level, right associativity).

(** ** A small runtime to evaluate the driver on

    Numbers are integers and the 16-bit cast keeps multiples of 8; the
    generator is a linear congruence; the constructor of [LinearOperator]
    probes the product with a zero vector; the solver makes one product
    with its starting vector ([v0], or one made from its hidden state) and
    returns [k] copies of what it got. *)
Module Toy.

Definition numeric : Numeric :=
  {| scalar := Z; round16 := fun z => 8 * (z / 8) |}.

#[local] Existing Instance numeric.

Definition zeros (n : Z) : ndarray := mk_ndarray float64 (repeat 0 (Z.to_nat n)).

Definition linear_operator (sh : Z * Z) : client LinearOperator :=
  if snd sh <? 0 then Raise "negative dimensions are not allowed"
  else Matvec (zeros (snd sh))
         (fun v => Return (mk_LinearOperator sh (a_dtype v))).

Definition start (args : eigsh_args) (s : Z) : ndarray :=
  match v0 args with
  | Some v => v
  | None => mk_ndarray float64
              (map (fun i => s + Z.of_nat i)
                   (seq 0 (Z.to_nat (fst (shape (A args))))))
  end.

Definition solver (args : eigsh_args) (s : Z)
  : client (list Z * ndarray2) * Z :=
  (if (k args <=? 0) || (fst (shape (A args)) <=? k args)
   then Raise "k must be between 1 and ndim(A)-1"
   else Matvec (start args s)
          (fun y =>
             let kk := Z.to_nat (k args) in
             Return (repeat (hd 0 (a_data y)) kk,
                     mk_ndarray2 (List.length (a_data y), kk)
                       (map (fun x => repeat x kk) (a_data y)))),
   s + 1).

Definition runtime : Runtime :=
  {| Rng := Z;
     rng_next := fun g => (g mod 10, 7 * g + 3);
     Entropy := Z;
     scipy_LinearOperator := linear_operator;
     scipy_eigsh := solver |}.

#[local] Existing Instance runtime.

(** [c] times the identity, of the declared size; its state counts the
    calls of [apply]. *)
Definition scaled_identity (sz : size_attr) (c : Z) : Operator nat :=
  {| size := fun _ => sz;
     apply := fun calls x =>
       (inr (mk_tensor (t_device x) (t_dtype x) (map (Z.mul c) (t_data x))),
        S calls) |}.

(** The same without any field that [apply] writes. *)
Definition stateless_identity (sz : size_attr) (c : Z) : Operator unit :=
  {| size := fun _ => sz;
     apply := fun st x =>
       (inr (mk_tensor (t_device x) (t_dtype x) (map (Z.mul c) (t_data x))),
        st) |}.

(** An operator whose [apply] raises. *)
Definition failing (sz : size_attr) : Operator nat :=
  {| size := fun _ => sz;
     apply := fun calls x => (inl "size mismatch"%string, S calls) |}.

Definition world0 {St} (st : St) (g s : Z) : world St :=
  mk_world st g s [].

(** An array the solver could ask the product of. *)
Definition x123 : ndarray := mk_ndarray float64 [1; 2; 3].

(** A supplied initial vector. *)
Definition e1 : ndarray + tensor := inl (mk_ndarray float64 [1; 0; 0]).

(** A call with a supplied initial vector on twice the identity of size 3,
    for one eigenpair, started with the solver's hidden state at [s]. *)
Definition run_supplied (s : Z) : (exn + list Z * ndarray2) * world unit :=
  lanczos (stateless_identity (SizeInt 3) 2) 1 "LM" 20 0 None (Some e1)
    false false (world0 tt 5 s).

(** The call of section 8 of the spec: 5 eigenpairs with 6 basis
    vectors, here on twice the identity of size 8. *)
Definition run_advised : (exn + list Z * ndarray2) * world nat :=
  lanczos (scaled_identity (SizeSeq [8; 8]) 2) 5 "LM" 20 0 (Some 6) None
    false false (world0 0%nat 5 1).

(** A call for five eigenpairs on size 8 that leaves the count of basis
    vectors and the initial vector to [lanczos]. *)
Definition run_default : (exn + list Z * ndarray2) * world nat :=
  lanczos (scaled_identity (SizeInt 8) 2) 5 "LM" 20 0 None None
    false false (world0 0%nat 5 1).

(** A call on an operator whose [apply] raises. *)
Definition run_failing : (exn + list Z * ndarray2) * world nat :=
  lanczos (failing (SizeInt 3)) 1 "LM" 20 0 None None
    false false (world0 0%nat 5 1).

(** A size that is the pair (3, 5) before the first call of [apply] and
    no size at all afterwards. *)
Definition size_then_none (calls : nat) : size_attr :=
  match calls with
  | O => SizeSeq [3; 5]
  | S _ => SizeOther
  end.

(** The [apply] of twice the identity, counting its calls. *)
Definition double (calls : nat) (x : tensor)
  : (string + tensor) * nat :=
  (inr (mk_tensor (t_device x) (t_dtype x) (map (Z.mul 2) (t_data x))),
   S calls).

(** An array whose numbers are kept by the 16-bit cast. *)
Definition x8 : ndarray := mk_ndarray float64 [8; 16; 24].

(** Its double, as a 16-bit array. *)
Definition y8 : ndarray := mk_ndarray float16 [16; 32; 48].

(** A call on the accelerator and in 16 bits. *)
Definition run_gpu_fp16 : (exn + list Z * ndarray2) * world nat :=
  lanczos (scaled_identity (SizeInt 3) 2) 1 "LM" 20 0 None None
    true true (world0 0%nat 5 1).

(** A call on a negative size, without initial vector. *)
Definition run_negative : (exn + list Z * ndarray2) * world nat :=
  lanczos (scaled_identity (SizeInt (-2)) 2) 1 "LM" 20 0 None None
    false false (world0 0%nat 5 1).

End Toy.

(** ** Lists of events *)

Ltac conj := repeat match goal with |- _ /\ _ => split end.

Section Events.
Context `{Runtime}.

Lemma applied_inputs_app (e1 e2 : list event) :
  applied_inputs (e1 ++ e2) = applied_inputs e1 ++ applied_inputs e2.
Proof. apply flat_map_app. Qed.

Lemma warnings_app (e1 e2 : list event) :
  warnings (e1 ++ e2) = warnings e1 ++ warnings e2.
Proof. apply flat_map_app. Qed.

Lemma solver_calls_app (e1 e2 : list event) :
  solver_calls (e1 ++ e2) = solver_calls e1 ++ solver_calls e2.
Proof. apply flat_map_app. Qed.

Lemma rand_draws_app (e1 e2 : list event) :
  rand_draws (e1 ++ e2) = rand_draws e1 ++ rand_draws e2.
Proof. apply flat_map_app. Qed.

(** Events that are all calls of the operator hold no warning, no call of
    the solver and no random draw. *)
Lemma only_applied_silent (evs : list event) :
  forallb is_applied evs = true ->
  warnings evs = [] /\ solver_calls evs = [] /\ rand_draws evs = [].
Proof.
  induction evs as [|ev evs IH]; simpl; [easy|].
  intros Hall. apply andb_prop in Hall as [Hev Hall].
  destruct ev; try discriminate. now apply IH.
Qed.

Lemma replay_app {St} (op : Operator St) (xs ys : list tensor) (st : St) :
  replay op (xs ++ ys) st = replay op xs (replay op ys st).
Proof. unfold replay. now rewrite fold_right_app. Qed.

(** A property of the operator's fields that every call of [apply] keeps
    is kept by a replay. *)
Lemma replay_invariant {St} (op : Operator St) (P : St -> Prop) :
  (forall st x, P st -> P (snd (apply op st x))) ->
  forall xs st, P st -> P (replay op xs st).
Proof.
  intros Hstep xs st Hst. induction xs as [|x xs IH]; simpl; auto.
Qed.

Lemma emitted_trans {St} (w w1 w2 : world St) (e1 e2 : list event) :
  emitted w w1 e1 -> emitted w1 w2 e2 -> emitted w w2 (e2 ++ e1).
Proof. unfold emitted. intros -> ->. now rewrite app_assoc. Qed.

End Events.

(** ** The callback and the scipy code that runs it *)

Section Callback.
Context `{Runtime} {St : Type}.
Variable operator : Operator St.
Variables use_gpu fp16 : bool.

(** One call of the callback is one call of the operator, on the
    converted input: its result converted back, or its exception. *)
Lemma scipy_apply_run (x : ndarray) (w : world St) :
  _scipy_apply operator use_gpu fp16 x w =
  let xt := to_operator_form use_gpu fp16 x in
  let w' := log (Applied xt (fst (apply operator (w_operator w) xt)))
              (set_operator (snd (apply operator (w_operator w) xt)) w) in
  (match fst (apply operator (w_operator w) xt) with
   | inl e => inl (OperatorException e)
   | inr out => inr (to_host_form fp16 out)
   end, w').
Proof.
  unfold _scipy_apply, bind, operator_apply, ret. cbv zeta.
  destruct (apply operator (w_operator w) (to_operator_form use_gpu fp16 x))
    as [[e|out] st]; reflexivity.
Qed.

(** What a run of scipy code against the callback can do: it leaves both
    random states alone, records nothing but calls of the operator, moves
    the operator's fields only by those calls, and ends with the
    operator's exception as soon as a call raises: a call that raised is
    the latest event. *)
Lemma run_client_spec {R} (t : client R) :
  forall (w : world St) r w',
    run_client (_scipy_apply operator use_gpu fp16) t w = (r, w') ->
    w_np_random w' = w_np_random w /\
    w_arpack w' = w_arpack w /\
    exists evs,
      emitted w w' evs /\
      forallb is_applied evs = true /\
      w_operator w' = replay operator (applied_inputs evs) (w_operator w) /\
      (forall x e, In (Applied x (inl e)) evs ->
                   r = inl (OperatorException e) /\
                   exists rest, evs = Applied x (inl e) :: rest).
Proof.
  induction t as [r0|e0|x next IH]; intros w r w' Hrun; simpl in Hrun.
  - inversion Hrun; subst. conj; auto.
    exists []. conj; auto; [reflexivity|]. intros ? ? [].
  - inversion Hrun; subst. conj; auto.
    exists []. conj; auto; [reflexivity|]. intros ? ? [].
  - unfold bind in Hrun. rewrite scipy_apply_run in Hrun. cbv zeta in Hrun.
    set (xt := to_operator_form use_gpu fp16 x) in *.
    destruct (apply operator (w_operator w) xt) as [[e|out] st] eqn:Happ;
      simpl in Hrun.
    + inversion Hrun; subst. conj; [reflexivity|reflexivity|].
      exists [Applied xt (inl e)]. conj.
      * reflexivity.
      * reflexivity.
      * simpl. now rewrite Happ.
      * intros x' e' [Heq|[]]. inversion Heq; subst.
        split; [reflexivity|]. now exists [].
    + apply IH in Hrun as (Hg & Hs & evs & Hem & Hall & Hop & Hexn).
      simpl in Hg, Hs, Hop. conj; [assumption|assumption|].
      exists (evs ++ [Applied xt (inr out)]). conj.
      * unfold emitted in *. rewrite Hem. simpl. now rewrite <- app_assoc.
      * rewrite forallb_app, Hall. reflexivity.
      * rewrite applied_inputs_app, replay_app. simpl. now rewrite Happ.
      * intros x' e' Hin.
        apply in_app_or in Hin as [Hin|[Heq|[]]]; [|discriminate].
        apply Hexn in Hin as (Hr & rest & ->).
        split; [assumption|]. now eexists.
Qed.

End Callback.

(** ** The two halves of [lanczos] *)

Section Phases.
Context `{Runtime} {St : Type}.
Variable operator : Operator St.
Variables use_gpu fp16 : bool.


Lemma lanczos_setup_spec (num_eigenthings : Z)
    (num_lanczos_vectors : option Z) (init_vec : option (ndarray + tensor))
    (n : Z) (w : world St) r w1 :
  size_of (size operator (w_operator w)) = inr n ->
  lanczos_setup operator num_eigenthings num_lanczos_vectors init_vec
    use_gpu fp16 w = (r, w1) ->
  let nv := vectors_in_use num_eigenthings n num_lanczos_vectors in
  exists apps rnd,
    emitted w w1
      (rnd ++ apps ++
       (if nv <? 2 * num_eigenthings then [Warned advisory] else [])) /\
    forallb is_applied apps = true /\
    w_arpack w1 = w_arpack w /\
    w_operator w1 = replay operator (applied_inputs apps) (w_operator w) /\
    (forall x e, In (Applied x (inl e)) apps ->
                 r = inl (OperatorException e) /\
                 exists rest, apps = Applied x (inl e) :: rest) /\
    ((rnd = [] /\ w_np_random w1 = w_np_random w /\
      (init_vec = None -> exists e, r = inl e)) \/
     (rnd = [Rand n] /\ init_vec = None /\ 0 <= n /\
      w_np_random w1 = snd (draw (Z.to_nat n) (w_np_random w)) /\
      exists l, r = inr l)) /\
    (forall l, r = inr l ->
       l_size l = n /\ l_num_lanczos_vectors l = nv /\
       l_init_vec l =
         maybe_fp16 (init_vec_array init_vec n (w_np_random w)) fp16).
Proof.
  intros Hsize Hrun nv.
  unfold lanczos_setup, bind, operator_size in Hrun. rewrite Hsize in Hrun.
  fold (vectors_in_use num_eigenthings n num_lanczos_vectors) in Hrun.
  fold nv in Hrun.
  set (w0 := if nv <? 2 * num_eigenthings
             then log (Warned advisory) w else w).
  assert (Hw0 : emitted w w0
                  (if nv <? 2 * num_eigenthings
                   then [Warned advisory] else []) /\
                w_operator w0 = w_operator w /\
                w_np_random w0 = w_np_random w /\
                w_arpack w0 = w_arpack w).
  { unfold w0. destruct (nv <? 2 * num_eigenthings); repeat split. }
  destruct Hw0 as (Hem0 & Hop0 & Hg0 & Hs0).
  assert (Hrun' :
    match ScipyLinearOperator (n, n)
            (_scipy_apply operator use_gpu fp16) w0 with
    | (inr scipy_op, w') =>
        match
          match init_vec with
          | None => np_random_rand n
          | Some (inr t) => ret (numpy (cpu t))
          | Some (inl a) => ret a
          end w'
        with
        | (inr iv, w'') =>
            ret (mk_locals n nv scipy_op (maybe_fp16 iv fp16)) w''
        | (inl e, w'') => (inl e, w'')
        end
    | (inl e, w') => (inl e, w')
    end = (r, w1)).
  { unfold w0. destruct (nv <? 2 * num_eigenthings); exact Hrun. }
  clear Hrun. unfold ScipyLinearOperator in Hrun'.
  destruct (run_client (_scipy_apply operator use_gpu fp16)
              (scipy_LinearOperator (n, n)) w0) as [rc wc] eqn:Hctor.
  apply run_client_spec in Hctor
    as (Hg & Hs & apps & Hem & Hall & Hop & Hexn).
  rewrite Hop0 in Hop. rewrite Hg0 in Hg. rewrite Hs0 in Hs.
  exists apps.
  destruct rc as [e|scipy_op].
  - (* the constructor raised *)
    inversion Hrun'; subst r w1. exists [].
    conj; [ | assumption | assumption | assumption | | | ].
    + exact (emitted_trans _ _ _ _ _ Hem0 Hem).
    + intros x e0 Hin. apply Hexn in Hin as (Hr & rest).
      split; [now inversion Hr|assumption].
    + left. conj; auto. intros _. now exists e.
    + intros l Hl. discriminate.
  - assert (Hok : forall (r' : exn + locals) x e,
              In (Applied x (inl e)) apps ->
              r' = inl (OperatorException e) /\
              exists rest, apps = Applied x (inl e) :: rest).
    { intros l x e Hin. apply Hexn in Hin as (Hr & _). discriminate. }
    destruct init_vec as [[a|t]|].
    + inversion Hrun'; subst r w1. exists [].
      conj; [ | assumption | assumption | assumption | apply Hok | | ].
      * exact (emitted_trans _ _ _ _ _ Hem0 Hem).
      * left. conj; auto. intros Hn. discriminate.
      * intros l Hl. inversion Hl. auto.
    + inversion Hrun'; subst r w1. exists [].
      conj; [ | assumption | assumption | assumption | apply Hok | | ].
      * exact (emitted_trans _ _ _ _ _ Hem0 Hem).
      * left. conj; auto. intros Hn. discriminate.
      * intros l Hl. inversion Hl. auto.
    + unfold np_random_rand in Hrun'.
      destruct (n <? 0) eqn:Hneg.
      * inversion Hrun'; subst r w1. exists [].
        conj; [ | assumption | assumption | assumption | apply Hok | | ].
        -- exact (emitted_trans _ _ _ _ _ Hem0 Hem).
        -- left. conj; auto. intros _. eexists; reflexivity.
        -- intros l Hl. discriminate.
      * rewrite Hg in Hrun'. unfold init_vec_array.
        destruct (draw (Z.to_nat n) (w_np_random w)) as [xs g] eqn:Hdraw.
        inversion Hrun'; subst r w1. exists [Rand n].
        apply Z.ltb_ge in Hneg.
        conj; [ | assumption | assumption | assumption | apply Hok | | ].
        -- unfold emitted in *. cbn [log set_np_random w_events app].
           rewrite Hem, Hem0. now rewrite <- app_assoc.
        -- right. conj; auto. now eexists.
        -- intros l Hl. inversion Hl. auto.
Qed.

Lemma lanczos_solve_spec (num_eigenthings : Z) (which : string)
    (max_steps : Z) (tol : scalar) (l : locals) (w1 : world St) r w' :
  lanczos_solve operator num_eigenthings which max_steps tol use_gpu fp16
    l w1 = (r, w') ->
  let args := solver_args num_eigenthings which max_steps tol l in
  exists apps,
    emitted w1 w' (apps ++ [Eigsh args]) /\
    forallb is_applied apps = true /\
    w_np_random w' = w_np_random w1 /\
    w_operator w' = replay operator (applied_inputs apps) (w_operator w1) /\
    (forall x e, In (Applied x (inl e)) apps ->
                 r = inl (OperatorException e) /\
                 exists rest, apps = Applied x (inl e) :: rest) /\
    (forall eigenvals eigenvecs, r = inr (eigenvals, eigenvecs) ->
       exists v, eigenvecs = T v /\
         eigsh (_scipy_apply operator use_gpu fp16) args w1
         = (inr (eigenvals, v), w')).
Proof.
  intros Hrun args. unfold lanczos_solve, bind in Hrun.
  fold (solver_args num_eigenthings which max_steps tol l) in Hrun.
  fold args in Hrun.
  destruct (eigsh (_scipy_apply operator use_gpu fp16) args w1)
    as [rs ws] eqn:Heig.
  pose proof Heig as Heig'. unfold eigsh in Heig'.
  destruct (scipy_eigsh args (w_arpack w1)) as [t s].
  apply run_client_spec in Heig'
    as (Hg & _ & apps & Hem & Hall & Hop & Hexn).
  exists apps.
  assert (Hem' : emitted w1 ws (apps ++ [Eigsh args])).
  { unfold emitted in *. rewrite Hem. cbn [log set_arpack w_events].
    now rewrite <- app_assoc. }
  destruct rs as [e|[eigenvals eigenvecs]]; inversion Hrun; subst r w'.
  - conj; [exact Hem' | exact Hall | exact Hg | exact Hop | | ].
    + intros x e0 Hin. apply Hexn in Hin as (Hr & rest).
      split; [now inversion Hr|assumption].
    + intros ? ? Hr. discriminate.
  - conj; [exact Hem' | exact Hall | exact Hg | exact Hop | | ].
    + intros x e0 Hin. apply Hexn in Hin as (Hr & _). discriminate.
    + intros vals vecs Hr. inversion Hr; subst. now exists eigenvecs.
Qed.

(** A call of [lanczos] is its setup and, when that returns, the call of
    the solver from the state the setup ended in. *)
Lemma lanczos_run (num_eigenthings : Z) (which : string) (max_steps : Z)
    (tol : scalar) (num_lanczos_vectors : option Z)
    (init_vec : option (ndarray + tensor)) (w : world St) :
  lanczos operator num_eigenthings which max_steps tol num_lanczos_vectors
    init_vec use_gpu fp16 w =
  match lanczos_setup operator num_eigenthings num_lanczos_vectors
          init_vec use_gpu fp16 w with
  | (inr l, w1) =>
      lanczos_solve operator num_eigenthings which max_steps tol
        use_gpu fp16 l w1
  | (inl e, w1) => (inl e, w1)
  end.
Proof. reflexivity. Qed.

(** What a call on an operator of usable size [n] does, as far as its
    events, the operator's fields and numpy's random state go. *)
Lemma lanczos_spec (num_eigenthings : Z) (which : string) (max_steps : Z)
    (tol : scalar) (num_lanczos_vectors : option Z)
    (init_vec : option (ndarray + tensor)) (n : Z) (w : world St) r w' :
  size_of (size operator (w_operator w)) = inr n ->
  lanczos operator num_eigenthings which max_steps tol num_lanczos_vectors
    init_vec use_gpu fp16 w = (r, w') ->
  let nv := vectors_in_use num_eigenthings n num_lanczos_vectors in
  exists evs,
    emitted w w' evs /\
    warnings evs =
      (if nv <? 2 * num_eigenthings then [advisory] else []) /\
    w_operator w' = replay operator (applied_inputs evs) (w_operator w) /\
    (forall x e, In (Applied x (inl e)) evs ->
                 r = inl (OperatorException e) /\
                 exists rest, evs = Applied x (inl e) :: rest) /\
    (forall a, In a (solver_calls evs) ->
       k a = num_eigenthings /\ ncv a = nv /\ v0 a = None) /\
    (forall l w1,
       lanczos_setup operator num_eigenthings num_lanczos_vectors
         init_vec use_gpu fp16 w = (inr l, w1) ->
       solver_calls evs
       = [solver_args num_eigenthings which max_steps tol l]) /\
    (init_vec <> None ->
       rand_draws evs = [] /\ w_np_random w' = w_np_random w).
Proof.
  intros Hsize Hrun nv. rewrite lanczos_run in Hrun.
  destruct (lanczos_setup operator num_eigenthings num_lanczos_vectors
              init_vec use_gpu fp16 w) as [rl w1] eqn:Hsetup.
  pose proof (lanczos_setup_spec _ _ _ _ _ _ _ Hsize Hsetup)
    as (apps & rnd & Hem & Hall & _ & Hop & Hexn & Hrnd & Hloc).
  fold nv in Hem, Hloc.
  destruct (only_applied_silent _ Hall) as (Hw1 & Hs1 & Hr1).
  assert (Hwarn : warnings (rnd ++ apps ++
            (if nv <? 2 * num_eigenthings then [Warned advisory] else []))
          = (if nv <? 2 * num_eigenthings then [advisory] else [])).
  { rewrite !warnings_app, Hw1.
    destruct Hrnd as [(-> & _)|(-> & _)];
      destruct (nv <? 2 * num_eigenthings); reflexivity. }
  assert (Hsolv : solver_calls (rnd ++ apps ++
            (if nv <? 2 * num_eigenthings then [Warned advisory] else []))
          = []).
  { rewrite !solver_calls_app, Hs1.
    destruct Hrnd as [(-> & _)|(-> & _)];
      destruct (nv <? 2 * num_eigenthings); reflexivity. }
  assert (Hinp : applied_inputs (rnd ++ apps ++
            (if nv <? 2 * num_eigenthings then [Warned advisory] else []))
          = applied_inputs apps).
  { rewrite !applied_inputs_app.
    destruct Hrnd as [(-> & _)|(-> & _)];
      destruct (nv <? 2 * num_eigenthings); simpl;
      now rewrite app_nil_r. }
  assert (Hin1 : forall ev, is_applied ev = true ->
            In ev (rnd ++ apps ++
              (if nv <? 2 * num_eigenthings then [Warned advisory] else []))
            -> In ev apps).
  { intros ev Hev Hin. apply in_app_or in Hin as [Hin|Hin].
    - destruct Hrnd as [(-> & _)|(-> & _)]; [destruct Hin|].
      destruct Hin as [<-|[]]. discriminate.
    - apply in_app_or in Hin as [Hin|Hin]; auto.
      destruct (nv <? 2 * num_eigenthings); [|destruct Hin].
      destruct Hin as [<-|[]]. discriminate. }
  destruct rl as [e|l].
  - (* the setup raised *)
    inversion Hrun; subst r w'. eexists.
    split; [exact Hem|]. conj.
    + exact Hwarn.
    + now rewrite Hinp.
    + intros x e0 Hin. apply Hin1 in Hin; [|reflexivity].
      apply Hexn in Hin as (Hr & rest & ->).
      split; [now inversion Hr|].
      destruct Hrnd as [(-> & _)|(_ & _ & _ & _ & l & Hl)];
        [|discriminate].
      now eexists.
    + intros a Hin. rewrite Hsolv in Hin. destruct Hin.
    + intros l w2 Hl. discriminate.
    + intros Hiv. destruct Hrnd as [(-> & Hg & _)|(_ & Hn & _)];
        [|contradiction].
      split; auto. rewrite !rand_draws_app, Hr1.
      destruct (nv <? 2 * num_eigenthings); reflexivity.
  - destruct (Hloc l eq_refl) as (Hsz & Hnv & Hiv).
    pose proof (lanczos_solve_spec _ _ _ _ _ _ _ _ Hrun)
      as (apps2 & Hem2 & Hall2 & Hg2 & Hop2 & Hexn2 & _).
    destruct (only_applied_silent _ Hall2) as (Hw2 & Hs2 & Hr2).
    eexists. split; [exact (emitted_trans _ _ _ _ _ Hem Hem2)|].
    conj.
    + rewrite warnings_app, Hwarn, warnings_app, Hw2. reflexivity.
    + rewrite applied_inputs_app, replay_app, Hinp, <- Hop.
      rewrite applied_inputs_app. simpl. rewrite app_nil_r. exact Hop2.
    + intros x e Hin. apply in_app_or in Hin as [Hin|Hin].
      * apply in_app_or in Hin as [Hin|[Heq|[]]]; [|discriminate].
        apply Hexn2 in Hin as (Hr & rest & ->).
        split; [assumption|]. now eexists.
      * apply Hin1 in Hin; [|reflexivity].
        apply Hexn in Hin as (Hr & _). discriminate.
    + intros a Hin. rewrite solver_calls_app, Hsolv, app_nil_r in Hin.
      rewrite solver_calls_app, Hs2 in Hin. destruct Hin as [<-|[]].
      simpl. auto.
    + intros l' w2 Hl. inversion Hl; subst l' w2.
      rewrite solver_calls_app, Hsolv, app_nil_r.
      rewrite solver_calls_app, Hs2. reflexivity.
    + intros Hiv'. destruct Hrnd as [(-> & Hg & _)|(_ & Hn & _)];
        [|contradiction].
      split; [|congruence].
      rewrite !rand_draws_app, Hr2, Hr1.
      destruct (nv <? 2 * num_eigenthings); reflexivity.
Qed.

End Phases.

(** ** Transposition *)

Section Transpose.
Context `{Numeric}.

Lemma column_cons (j : nat) (r : list scalar) (rows : list (list scalar)) x :
  nth_error r j = Some x -> column j (r :: rows) = x :: column j rows.
Proof. intros Hx. unfold column. simpl. now rewrite Hx. Qed.

Lemma column_nth_error (k j : nat) (rows : list (list scalar)) :
  Forall (fun r => List.length r = k) rows -> (j < k)%nat ->
  forall i, nth_error (column j rows) i =
            match nth_error rows i with
            | Some r => nth_error r j
            | None => None
            end.
Proof.
  intros Hrows Hj. induction Hrows as [|r rows Hr _ IH]; intros i.
  - now destruct i.
  - destruct (nth_error r j) as [x|] eqn:Hx.
    + rewrite (column_cons _ _ _ _ Hx). destruct i; simpl; auto.
    + apply nth_error_None in Hx. lia.
Qed.

Lemma column_length (k j : nat) (rows : list (list scalar)) :
  Forall (fun r => List.length r = k) rows -> (j < k)%nat ->
  List.length (column j rows) = List.length rows.
Proof.
  intros Hrows Hj. induction Hrows as [|r rows Hr _ IH]; [reflexivity|].
  destruct (nth_error r j) as [x|] eqn:Hx.
  - rewrite (column_cons _ _ _ _ Hx). simpl. now rewrite IH.
  - apply nth_error_None in Hx. lia.
Qed.

(** The transpose of [n] rows of [k] entries is [k] rows of [n] entries. *)
Lemma T_has_shape (n k : nat) (m : ndarray2) :
  has_shape n k m -> has_shape k n (T m).
Proof.
  intros (Hsh & Hlen & Hrows). unfold has_shape, T. rewrite Hsh. simpl.
  conj.
  - reflexivity.
  - now rewrite length_map, length_seq.
  - apply Forall_forall. intros r Hin.
    apply in_map_iff in Hin as (j & <- & Hj). apply in_seq in Hj.
    rewrite (column_length k); auto. lia.
Qed.

(** Entry [(i, j)] of the transpose is entry [(j, i)]. *)
Lemma T_entry (n k : nat) (m : ndarray2) (i j : nat) :
  has_shape n k m -> entry (T m) i j = entry m j i.
Proof.
  intros (Hsh & Hlen & Hrows). unfold entry, T. rewrite Hsh. simpl.
  rewrite nth_error_map, nth_error_seq.
  destruct (Nat.ltb i k) eqn:Hi; simpl.
  - apply Nat.ltb_lt in Hi. now apply (column_nth_error k).
  - apply Nat.ltb_ge in Hi.
    destruct (nth_error (m_rows m) j) as [r|] eqn:Hr; [|reflexivity].
    symmetry. apply nth_error_None.
    rewrite Forall_forall in Hrows.
    rewrite (Hrows r); [assumption|]. eapply nth_error_In; eauto.
Qed.

End Transpose.

(** ** Properties of [lanczos] *)

Section Claims.
Context `{Runtime} {St : Type}.


Lemma size_of_usable (s : size_attr) :
  usable_size s = true <-> exists n, size_of s = inr n.
Proof.
  destruct s as [n|[|n dims]|]; simpl; split; intros Hs;
    try discriminate; try (now eexists); destruct Hs; discriminate.
Qed.

(** A call on an operator without a usable size raises at line 58 and
    leaves the whole state as it was. *)
Lemma lanczos_unusable_size (operator : Operator St)
    (num_eigenthings : Z) (which : string) (max_steps : Z) (tol : scalar)
    (num_lanczos_vectors : option Z) (init_vec : option (ndarray + tensor))
    (use_gpu fp16 : bool) (w : world St) :
  usable_size (size operator (w_operator w)) = false ->
  exists e,
    InvalidOperatorShape e = true /\
    lanczos operator num_eigenthings which max_steps tol
      num_lanczos_vectors init_vec use_gpu fp16 w = (inl e, w).
Proof.
  intros Hsize.
  unfold lanczos, lanczos_setup, bind, operator_size.
  destruct (size operator (w_operator w)) as [n|[|n dims]|];
    try discriminate; simpl.
  - exists IndexError_out_of_range. split; reflexivity.
  - exists TypeError_not_subscriptable. split; reflexivity.
Qed.

(** C1: when [operator.size] is neither an integer nor a sequence with a
    first element, [lanczos] raises the exception of [operator.size[0]]
    (the InvalidOperatorShape condition) and the state is untouched: no
    event was recorded, so [operator.apply] was called zero times and the
    solver was not called. *)
Theorem lanczos_invalid_operator_shape (operator : Operator St)
    (num_eigenthings : Z) (which : string) (max_steps : Z) (tol : scalar)
    (num_lanczos_vectors : option Z) (init_vec : option (ndarray + tensor))
    (use_gpu fp16 : bool) (w : world St) :
  usable_size (size operator (w_operator w)) = false ->
  exists e w' evs,
    lanczos operator num_eigenthings which max_steps tol
      num_lanczos_vectors init_vec use_gpu fp16 w = (inl e, w') /\
    InvalidOperatorShape e = true /\
    w' = w /\
    emitted w w' evs /\
    apply_calls evs = 0%nat /\
    solver_calls evs = [].
Proof.
  intros Hsize.
  destruct (lanczos_unusable_size operator num_eigenthings which max_steps
              tol num_lanczos_vectors init_vec use_gpu fp16 w Hsize)
    as (e & He & Hrun).
  exists e, w, []. conj; auto. reflexivity.
Qed.

(** C2: when the setup has returned and the solver, called from there,
    returns [kk] eigenvalues and an [n]-by-[kk] matrix with one
    eigenvector per column, [lanczos] returns the same eigenvalues and the
    transposed matrix: [kk] rows of length [n], row [i] being column [i]
    of the solver's matrix. *)
Theorem lanczos_returns_transposed (operator : Operator St)
    (num_eigenthings : Z) (which : string) (max_steps : Z) (tol : scalar)
    (num_lanczos_vectors : option Z) (init_vec : option (ndarray + tensor))
    (use_gpu fp16 : bool) (w : world St)
    (l : locals) (w1 w2 : world St)
    (eigenvals : list scalar) (eigenvecs : ndarray2) (n kk : nat) :
  lanczos_setup operator num_eigenthings num_lanczos_vectors init_vec
    use_gpu fp16 w = (inr l, w1) ->
  eigsh (_scipy_apply operator use_gpu fp16)
    (solver_args num_eigenthings which max_steps tol l) w1
  = (inr (eigenvals, eigenvecs), w2) ->
  List.length eigenvals = kk ->
  has_shape n kk eigenvecs ->
  lanczos operator num_eigenthings which max_steps tol
    num_lanczos_vectors init_vec use_gpu fp16 w
  = (inr (eigenvals, T eigenvecs), w2) /\
  List.length eigenvals = kk /\
  has_shape kk n (T eigenvecs) /\
  (forall i, (i < kk)%nat ->
     nth_error (m_rows (T eigenvecs)) i
     = Some (column i (m_rows eigenvecs))) /\
  (forall i j, entry (T eigenvecs) i j = entry eigenvecs j i).
Proof.
  intros Hsetup Hsolve Hvals Hshape. conj.
  - rewrite lanczos_run, Hsetup. unfold lanczos_solve, bind.
    fold (solver_args num_eigenthings which max_steps tol l).
    now rewrite Hsolve.
  - exact Hvals.
  - now apply T_has_shape.
  - intros i Hi. destruct Hshape as (Hsh & _). unfold T. rewrite Hsh. simpl.
    rewrite nth_error_map, nth_error_seq.
    apply Nat.ltb_lt in Hi. now rewrite Hi.
  - intros i j. now apply (T_entry n kk).
Qed.


(** C5: an array taken to the operator's form (lines 69-72) and back to
    the host form (lines 74-75) is the same array when [fp16] is false;
    when [fp16] is true it is the float16 array of the values cast to 16
    bits, at each of the two casts. *)
Theorem round_trip (use_gpu : bool) (x : ndarray) :
  to_host_form false (to_operator_form use_gpu false x) = x /\
  to_host_form true (to_operator_form use_gpu true x)
  = mk_ndarray float16 (map round16 (map round16 (a_data x))) /\
  to_host_form true (to_operator_form use_gpu true x) = half (half x).
Proof.
  destruct x as [d xs]. destruct use_gpu; conj; reflexivity.
Qed.

(** C6: when [operator.apply] raises [e] on the converted input, the
    callback makes that one call and raises [e]; any scipy code that asks
    for this product ends with [e]; and a call of [lanczos] in which some
    call of [operator.apply] raised [e] ends with [e], that call being
    the last thing that happened. *)
Theorem operator_exception_propagates (operator : Operator St)
    (use_gpu fp16 : bool) (x : ndarray) (w : world St) (e : string)
    (st : St) :
  apply operator (w_operator w) (to_operator_form use_gpu fp16 x)
  = (inl e, st) ->
  let w1 := log (Applied (to_operator_form use_gpu fp16 x) (inl e))
              (set_operator st w) in
  _scipy_apply operator use_gpu fp16 x w = (inl (OperatorException e), w1) /\
  (forall R (next : ndarray -> client R),
     run_client (_scipy_apply operator use_gpu fp16) (Matvec x next) w
     = (inl (OperatorException e), w1)) /\
  (forall num_eigenthings which max_steps tol num_lanczos_vectors init_vec
          (w0 : world St) r w',
     lanczos operator num_eigenthings which max_steps tol
       num_lanczos_vectors init_vec use_gpu fp16 w0 = (r, w') ->
     exists evs,
       emitted w0 w' evs /\
       forall x' e', In (Applied x' (inl e')) evs ->
                     r = inl (OperatorException e') /\
                     exists rest, evs = Applied x' (inl e') :: rest).
Proof.
  intros Happ w1.
  assert (Hcb : _scipy_apply operator use_gpu fp16 x w
                = (inl (OperatorException e), w1)).
  { rewrite scipy_apply_run. cbv zeta. now rewrite Happ. }
  conj.
  - exact Hcb.
  - intros R next. simpl. unfold bind. now rewrite Hcb.
  - intros num_eigenthings which max_steps tol num_lanczos_vectors init_vec
           w0 r w' Hrun.
    destruct (size_of (size operator (w_operator w0))) as [e0|n] eqn:Hsize.
    + assert (Hbad : usable_size (size operator (w_operator w0)) = false).
      { destruct (usable_size (size operator (w_operator w0))) eqn:Hu;
          [|reflexivity].
        apply size_of_usable in Hu as (n & Hn). congruence. }
      destruct (lanczos_unusable_size operator num_eigenthings which
                  max_steps tol num_lanczos_vectors init_vec use_gpu fp16
                  w0 Hbad) as (e1 & _ & Hrun').
      rewrite Hrun' in Hrun. inversion Hrun; subst.
      exists []. split; [reflexivity|]. intros ? ? [].
    + destruct (lanczos_spec _ _ _ _ _ _ _ _ _ _ _ _ _ Hsize Hrun)
        as (evs & Hem & _ & _ & Hexn & _).
      exists evs. split; assumption.
Qed.


(** C8: [lanczos] writes no field of the operator.  After the call the
    operator's fields are what the recorded calls of its own [apply] made
    of them; so every property of the fields that [apply] keeps still
    holds, and the fields are unchanged when [apply] changes none. *)
Theorem lanczos_frames_operator (operator : Operator St)
    (num_eigenthings : Z) (which : string) (max_steps : Z) (tol : scalar)
    (num_lanczos_vectors : option Z) (init_vec : option (ndarray + tensor))
    (use_gpu fp16 : bool) (w : world St) r w' :
  lanczos operator num_eigenthings which max_steps tol num_lanczos_vectors
    init_vec use_gpu fp16 w = (r, w') ->
  exists evs,
    emitted w w' evs /\
    w_operator w' = replay operator (applied_inputs evs) (w_operator w) /\
    (forall P : St -> Prop,
       (forall st x, P st -> P (snd (apply operator st x))) ->
       P (w_operator w) -> P (w_operator w')) /\
    ((forall st x, snd (apply operator st x) = st) ->
     w_operator w' = w_operator w).
Proof.
  intros Hrun.
  assert (Hex : exists evs,
            emitted w w' evs /\
            w_operator w'
            = replay operator (applied_inputs evs) (w_operator w)).
  { destruct (size_of (size operator (w_operator w))) as [e0|n] eqn:Hsize.
    - assert (Hbad : usable_size (size operator (w_operator w)) = false).
      { destruct (usable_size (size operator (w_operator w))) eqn:Hu;
          [|reflexivity].
        apply size_of_usable in Hu as (n & Hn). congruence. }
      destruct (lanczos_unusable_size operator num_eigenthings which
                  max_steps tol num_lanczos_vectors init_vec use_gpu fp16
                  w Hbad) as (e1 & _ & Hrun').
      rewrite Hrun' in Hrun. inversion Hrun; subst.
      exists []. split; reflexivity.
    - destruct (lanczos_spec _ _ _ _ _ _ _ _ _ _ _ _ _ Hsize Hrun)
        as (evs & Hem & _ & Hop & _).
      exists evs. split; assumption. }
  destruct Hex as (evs & Hem & Hop). exists evs. conj; auto.
  - intros P Hstep HP. rewrite Hop. now apply replay_invariant.
  - intros Hpure. rewrite Hop.
    apply (replay_invariant operator (fun st => st = w_operator w)); auto.
    intros st x ->. apply Hpure.
Qed.

(** C9: with [num_lanczos_vectors=None] and a size of at most
    [2 * num_eigenthings], the derived count is [size - 1], it is below
    [2 * num_eigenthings], and the call warns. *)
Theorem lanczos_default_warns (operator : Operator St)
    (num_eigenthings : Z) (which : string) (max_steps : Z) (tol : scalar)
    (init_vec : option (ndarray + tensor))
    (use_gpu fp16 : bool) (n : Z) (w : world St) r w' :
  size_of (size operator (w_operator w)) = inr n ->
  n <= 2 * num_eigenthings ->
  lanczos operator num_eigenthings which max_steps tol None init_vec
    use_gpu fp16 w = (r, w') ->
  vectors_in_use num_eigenthings n None = n - 1 /\
  n - 1 < 2 * num_eigenthings /\
  exists evs, emitted w w' evs /\ warnings evs = [advisory].
Proof.
  intros Hsize Hle Hrun.
  assert (Hnv : vectors_in_use num_eigenthings n None = n - 1).
  { unfold vectors_in_use. lia. }
  conj; [exact Hnv | lia | ].
  destruct (lanczos_spec _ _ _ _ _ _ _ _ _ _ _ _ _ Hsize Hrun)
    as (evs & Hem & Hwarn & _).
  exists evs. split; [assumption|].
  rewrite Hwarn, Hnv.
  replace (n - 1 <? 2 * num_eigenthings) with true; [reflexivity|].
  symmetry. apply Z.ltb_lt. lia.
Qed.

(** The value of a supplied [init_vec] has no effect on the call: after
    lines 81-84 it is used nowhere. *)
Lemma lanczos_init_vec_unused (operator : Operator St)
    (num_eigenthings : Z) (which : string) (max_steps : Z) (tol : scalar)
    (num_lanczos_vectors : option Z) (v v' : ndarray + tensor)
    (use_gpu fp16 : bool) (w : world St) :
  lanczos operator num_eigenthings which max_steps tol num_lanczos_vectors
    (Some v) use_gpu fp16 w
  = lanczos operator num_eigenthings which max_steps tol num_lanczos_vectors
      (Some v') use_gpu fp16 w.
Proof.
  unfold lanczos, lanczos_setup, bind.
  destruct (operator_size operator w) as [[e|n] w0]; [reflexivity|].
  destruct ((if _ <? _ then warn advisory else ret tt) w0)
    as [[e|u] w1]; [reflexivity|].
  destruct (ScipyLinearOperator (n, n)
              (_scipy_apply operator use_gpu fp16) w1)
    as [[e|scipy_op] w2]; [reflexivity|].
  destruct v as [a|t], v' as [a'|t']; reflexivity.
Qed.

(** With a supplied [init_vec] nothing is drawn from numpy's random
    state. *)
Lemma lanczos_supplied_no_draw (operator : Operator St)
    (num_eigenthings : Z) (which : string) (max_steps : Z) (tol : scalar)
    (num_lanczos_vectors : option Z) (v : ndarray + tensor)
    (use_gpu fp16 : bool) (w : world St) r w' :
  lanczos operator num_eigenthings which max_steps tol num_lanczos_vectors
    (Some v) use_gpu fp16 w = (r, w') ->
  w_np_random w' = w_np_random w /\
  exists evs, emitted w w' evs /\ rand_draws evs = [].
Proof.
  intros Hrun.
  destruct (size_of (size operator (w_operator w))) as [e0|n] eqn:Hsize.
  - assert (Hbad : usable_size (size operator (w_operator w)) = false).
    { destruct (usable_size (size operator (w_operator w))) eqn:Hu;
        [|reflexivity].
      apply size_of_usable in Hu as (n & Hn). congruence. }
    destruct (lanczos_unusable_size operator num_eigenthings which
                max_steps tol num_lanczos_vectors (Some v) use_gpu fp16
                w Hbad) as (e1 & _ & Hrun').
    rewrite Hrun' in Hrun. inversion Hrun; subst.
    split; [reflexivity|]. exists []. split; reflexivity.
  - destruct (lanczos_spec _ _ _ _ _ _ _ _ _ _ _ _ _ Hsize Hrun)
      as (evs & Hem & _ & _ & _ & _ & _ & Hrand).
    destruct Hrand as (Hr & Hg); [discriminate|].
    split; [assumption|]. exists evs. split; assumption.
Qed.

End Claims.

(** ** Transposing twice *)

Section TransposeTwice.
Context `{Numeric}.

Lemma T_rows_nth_error (n k : nat) (m : ndarray2) (j : nat) :
  has_shape n k m ->
  nth_error (m_rows (T m)) j
  = if Nat.ltb j k then Some (column j (m_rows m)) else None.
Proof.
  intros (Hsh & _). unfold T. rewrite Hsh. cbn [m_rows snd].
  rewrite nth_error_map, nth_error_seq. now destruct (Nat.ltb j k).
Qed.

Lemma T_T_rows (n k : nat) (m : ndarray2) :
  has_shape n k m -> m_rows (T (T m)) = m_rows m.
Proof.
  intros Hm. pose proof (T_has_shape n k m Hm) as Ht.
  pose proof Hm as (Hsh & Hlen & Hrows).
  pose proof Ht as (_ & _ & Hcols).
  apply nth_error_ext. intros i.
  rewrite (T_rows_nth_error k n (T m) i Ht).
  destruct (Nat.ltb i n) eqn:Hi.
  - apply Nat.ltb_lt in Hi.
    destruct (nth_error (m_rows m) i) as [r|] eqn:Hr;
      [|apply nth_error_None in Hr; lia].
    f_equal. apply nth_error_ext. intros j.
    rewrite (column_nth_error n i (m_rows (T m)) Hcols Hi j).
    rewrite (T_rows_nth_error n k m j Hm).
    assert (Hlr : List.length r = k).
    { rewrite Forall_forall in Hrows. apply Hrows.
      eapply nth_error_In; eauto. }
    destruct (Nat.ltb j k) eqn:Hj.
    + apply Nat.ltb_lt in Hj.
      rewrite (column_nth_error k j (m_rows m) Hrows Hj i). now rewrite Hr.
    + apply Nat.ltb_ge in Hj. symmetry. apply nth_error_None. lia.
  - apply Nat.ltb_ge in Hi. symmetry. apply nth_error_None. lia.
Qed.

End TransposeTwice.

(** ** The shape of a call: what happens, and in which order *)

Section Traces.
Context `{Runtime} {St : Type}.
Variable operator : Operator St.
Variables use_gpu fp16 : bool.

Lemma emitted_unique (w w' : world St) (e1 e2 : list event) :
  emitted w w' e1 -> emitted w w' e2 -> e1 = e2.
Proof.
  unfold emitted. intros H1 H2. rewrite H1 in H2.
  now apply app_inv_tail in H2.
Qed.

(** A run of scipy code against the callback, once more: every tensor
    the operator was applied to is the converted form of an array, and an
    exception of the run is either scipy's own or the operator's, raised
    by the latest call. *)
Lemma run_client_trace {R} (t : client R) :
  forall (w : world St) r w',
    run_client (_scipy_apply operator use_gpu fp16) t w = (r, w') ->
    exists evs,
      emitted w w' evs /\
      forallb is_applied evs = true /\
      (forall x out, In (Applied x out) evs ->
         exists a, x = to_operator_form use_gpu fp16 a) /\
      match r with
      | inl (OperatorException s) =>
          exists x rest, evs = Applied x (inl s) :: rest
      | inl (SolverException _) => True
      | inl _ => False
      | inr _ => True
      end.
Proof.
  induction t as [r0|e0|x next IH]; intros w r w' Hrun; simpl in Hrun.
  - inversion Hrun; subst. exists []. conj; auto; [reflexivity|].
    intros ? ? [].
  - inversion Hrun; subst. exists []. conj; auto; [reflexivity|].
    intros ? ? [].
  - unfold bind in Hrun. rewrite scipy_apply_run in Hrun. cbv zeta in Hrun.
    set (xt := to_operator_form use_gpu fp16 x) in *.
    destruct (apply operator (w_operator w) xt) as [[e|out] st] eqn:Happ;
      simpl in Hrun.
    + inversion Hrun; subst. exists [Applied xt (inl e)]. conj.
      * reflexivity.
      * reflexivity.
      * intros x' out' [Heq|[]]. inversion Heq; subst. now exists x.
      * now exists xt, [].
    + apply IH in Hrun as (evs & Hem & Hall & Hin & Hr).
      exists (evs ++ [Applied xt (inr out)]). conj.
      * unfold emitted in *. rewrite Hem. simpl. now rewrite <- app_assoc.
      * rewrite forallb_app, Hall. reflexivity.
      * intros x' out' Hx. apply in_app_or in Hx as [Hx|[Heq|[]]]; eauto.
        inversion Heq; subst. now exists x.
      * destruct r as [[| | |s|s]|]; auto.
        destruct Hr as (x' & rest & ->). now eexists; eexists.
Qed.

(** The setup on an operator of usable size [n], step by step. *)
Lemma lanczos_setup_run (num_eigenthings : Z)
    (num_lanczos_vectors : option Z) (init_vec : option (ndarray + tensor))
    (n : Z) (w : world St) :
  size_of (size operator (w_operator w)) = inr n ->
  lanczos_setup operator num_eigenthings num_lanczos_vectors init_vec
    use_gpu fp16 w =
  let nv := vectors_in_use num_eigenthings n num_lanczos_vectors in
  let w0 := if nv <? 2 * num_eigenthings
            then log (Warned advisory) w else w in
  match ScipyLinearOperator (n, n)
          (_scipy_apply operator use_gpu fp16) w0 with
  | (inr scipy_op, w1) =>
      match
        match init_vec with
        | None => np_random_rand n
        | Some (inr t) => ret (numpy (cpu t))
        | Some (inl a) => ret a
        end w1
      with
      | (inr v, w2) =>
          (inr (mk_locals n nv scipy_op (maybe_fp16 v fp16)), w2)
      | (inl e, w2) => (inl e, w2)
      end
  | (inl e, w1) => (inl e, w1)
  end.
Proof.
  intros Hsize. unfold lanczos_setup, bind, operator_size. rewrite Hsize.
  fold (vectors_in_use num_eigenthings n num_lanczos_vectors). cbv zeta.
  destruct (vectors_in_use num_eigenthings n num_lanczos_vectors
            <? 2 * num_eigenthings); reflexivity.
Qed.

(** Lines 79-82, from the state [wc] the constructor left. *)
Lemma init_vec_step (init_vec : option (ndarray + tensor)) (n : Z)
    (wc : world St) ri w2 :
  match init_vec with
  | None => np_random_rand n
  | Some (inr t) => ret (numpy (cpu t))
  | Some (inl a) => ret a
  end wc = (ri, w2) ->
  (ri = inl ValueError_negative_dimensions /\ w2 = wc /\
   init_vec = None /\ n < 0) \/
  (exists v, ri = inr v /\ w2 = wc /\ init_vec <> None) \/
  (exists v, ri = inr v /\ init_vec = None /\ 0 <= n /\
     w_events w2 = Rand n :: w_events wc /\
     w_operator w2 = w_operator wc /\
     w_arpack w2 = w_arpack wc /\
     w_np_random w2 = snd (draw (Z.to_nat n) (w_np_random wc))).
Proof.
  destruct init_vec as [[a|t]|]; intros Hstep.
  - inversion Hstep; subst. right. left. eexists. conj; eauto. discriminate.
  - inversion Hstep; subst. right. left. eexists. conj; eauto. discriminate.
  - unfold np_random_rand in Hstep. destruct (n <? 0) eqn:Hneg.
    + inversion Hstep; subst. left. apply Z.ltb_lt in Hneg. conj; auto.
    + apply Z.ltb_ge in Hneg.
      destruct (draw (Z.to_nat n) (w_np_random wc)) as [xs g] eqn:Hdraw.
      inversion Hstep; subst. right. right. eexists. conj; eauto.
Qed.

(** Lines 85-94 from the state [w1] the setup left. *)
Lemma lanczos_solve_trace (num_eigenthings : Z) (which : string)
    (max_steps : Z) (tol : scalar) (l : locals) (w1 : world St) r w' :
  lanczos_solve operator num_eigenthings which max_steps tol use_gpu fp16
    l w1 = (r, w') ->
  exists apps,
    emitted w1 w'
      (apps ++ [Eigsh (solver_args num_eigenthings which max_steps tol l)]) /\
    forallb is_applied apps = true /\
    (forall x out, In (Applied x out) apps ->
       exists a, x = to_operator_form use_gpu fp16 a) /\
    w_np_random w' = w_np_random w1 /\
    match r with
    | inl (OperatorException s) =>
        exists x rest, apps = Applied x (inl s) :: rest
    | inl (SolverException _) => True
    | inl _ => False
    | inr _ => True
    end.
Proof.
  intros Hrun. unfold lanczos_solve, bind in Hrun.
  fold (solver_args num_eigenthings which max_steps tol l) in Hrun.
  set (args := solver_args num_eigenthings which max_steps tol l) in *.
  destruct (eigsh (_scipy_apply operator use_gpu fp16) args w1)
    as [rs ws] eqn:Heig.
  unfold eigsh in Heig.
  destruct (scipy_eigsh args (w_arpack w1)) as [t s].
  pose proof (run_client_trace _ _ _ _ Heig)
    as (apps & Hem & Hall & Hin & Hr).
  pose proof (run_client_spec operator use_gpu fp16 _ _ _ _ Heig)
    as (Hg & _).
  exists apps.
  assert (Hem' : emitted w1 ws (apps ++ [Eigsh args])).
  { unfold emitted in *. rewrite Hem. cbn [log set_arpack w_events].
    now rewrite <- app_assoc. }
  destruct rs as [e|[eigenvals eigenvecs]]; inversion Hrun; subst r w'.
  - conj; [exact Hem' | exact Hall | exact Hin | exact Hg | exact Hr].
  - conj; [exact Hem' | exact Hall | exact Hin | exact Hg | exact I].
Qed.

(** A whole call on an operator of usable size [n]: the advisory if
    any, then the products the constructor asked for, then the draw if
    any, then the call of [eigsh] and the products it asked for. *)
Lemma lanczos_trace (num_eigenthings : Z) (which : string) (max_steps : Z)
    (tol : scalar) (num_lanczos_vectors : option Z)
    (init_vec : option (ndarray + tensor)) (n : Z) (w : world St) r w' :
  size_of (size operator (w_operator w)) = inr n ->
  lanczos operator num_eigenthings which max_steps tol num_lanczos_vectors
    init_vec use_gpu fp16 w = (r, w') ->
  let nv := vectors_in_use num_eigenthings n num_lanczos_vectors in
  exists apps1 rnd sol,
    emitted w w'
      (sol ++ rnd ++ apps1 ++
       (if nv <? 2 * num_eigenthings then [Warned advisory] else [])) /\
    forallb is_applied apps1 = true /\
    (forall x out, In (Applied x out) (sol ++ apps1) ->
       exists a, x = to_operator_form use_gpu fp16 a) /\
    ((rnd = [] /\ w_np_random w' = w_np_random w /\
      (init_vec = None -> sol = [])) \/
     (rnd = [Rand n] /\ init_vec = None /\ 0 <= n /\
      w_np_random w' = snd (draw (Z.to_nat n) (w_np_random w)))) /\
    ((sol = [] /\
      exists e, r = inl e /\
        lanczos_setup operator num_eigenthings num_lanczos_vectors
          init_vec use_gpu fp16 w = (inl e, w')) \/
     (exists apps2 l w1,
        sol = apps2 ++
              [Eigsh (solver_args num_eigenthings which max_steps tol l)] /\
        forallb is_applied apps2 = true /\
        lanczos_setup operator num_eigenthings num_lanczos_vectors
          init_vec use_gpu fp16 w = (inr l, w1))) /\
    match r with
    | inl (OperatorException s) =>
        exists x rest, sol ++ rnd ++ apps1 = Applied x (inl s) :: rest
    | inl (SolverException _) => True
    | inl ValueError_negative_dimensions =>
        init_vec = None /\ n < 0 /\ sol = [] /\ rnd = []
    | inl _ => False
    | inr _ => True
    end.
Proof.
  intros Hsize Hrun nv. rewrite lanczos_run in Hrun.
  pose proof (lanczos_setup_run num_eigenthings num_lanczos_vectors
                init_vec n w Hsize) as Hset.
  cbv zeta in Hset. fold nv in Hset.
  set (w0 := if nv <? 2 * num_eigenthings
             then log (Warned advisory) w else w) in *.
  assert (Hw0 : emitted w w0
                  (if nv <? 2 * num_eigenthings
                   then [Warned advisory] else []) /\
                w_np_random w0 = w_np_random w).
  { unfold w0. destruct (nv <? 2 * num_eigenthings); split; reflexivity. }
  destruct Hw0 as (Hem0 & Hg0).
  unfold ScipyLinearOperator in Hset.
  destruct (run_client (_scipy_apply operator use_gpu fp16)
              (scipy_LinearOperator (n, n)) w0) as [rc wc] eqn:Hctor.
  pose proof (run_client_trace _ _ _ _ Hctor)
    as (apps1 & Hem1 & Hall1 & Hin1 & Hr1).
  pose proof (run_client_spec operator use_gpu fp16 _ _ _ _ Hctor)
    as (Hg1 & _).
  rewrite Hg0 in Hg1.
  pose proof (emitted_trans _ _ _ _ _ Hem0 Hem1) as Hem01.
  exists apps1. destruct rc as [e|scipy_op].
  - (* the constructor raised *)
    rewrite Hset in Hrun. inversion Hrun; subst r w'.
    exists [], []. cbn [app]. conj.
    + exact Hem01.
    + exact Hall1.
    + exact Hin1.
    + left. conj; [reflexivity|exact Hg1|reflexivity].
    + left. split; [reflexivity|]. exists e. split; [reflexivity|exact Hset].
    + destruct e; auto; destruct Hr1.
  - destruct (match init_vec with
              | None => np_random_rand n
              | Some (inr t) => ret (numpy (cpu t))
              | Some (inl a) => ret a
              end wc) as [ri w2] eqn:Hstep.
    apply init_vec_step in Hstep
      as [(-> & -> & Hiv & Hneg)
         |[(v & -> & -> & Hiv)
          |(v & -> & Hiv & Hpos & Hev & Hop & Hs & Hg)]].
    + (* [np.random.rand] refused a negative size *)
      rewrite Hset in Hrun. inversion Hrun; subst r w'.
      exists [], []. cbn [app].
      refine (conj Hem01 (conj Hall1 (conj Hin1 (conj _ (conj _ _))))).
      * left. conj; [reflexivity|exact Hg1|reflexivity].
      * left. split; [reflexivity|]. eexists. split; [reflexivity|exact Hset].
      * conj; auto.
    + (* a supplied initial vector *)
      rewrite Hset in Hrun.
      pose proof (lanczos_solve_trace _ _ _ _ _ _ _ _ Hrun)
        as (apps2 & Hem2 & Hall2 & Hin2 & Hg2 & Hr2).
      exists [], (apps2 ++ [Eigsh (solver_args num_eigenthings which
                                      max_steps tol
                                      (mk_locals n nv scipy_op
                                         (maybe_fp16 v fp16)))]).
      cbn [app]. conj.
      * exact (emitted_trans _ _ _ _ _ Hem01 Hem2).
      * exact Hall1.
      * intros x out Hx. apply in_app_or in Hx as [Hx|Hx]; [|eauto].
        apply in_app_or in Hx as [Hx|[Heq|[]]]; [eauto|discriminate].
      * left. conj; [reflexivity|congruence|]. intros Hn. contradiction.
      * right. eexists. eexists. eexists.
        conj; [reflexivity|exact Hall2|exact Hset].
      * destruct r as [[| | |s|s]|]; auto; try (now destruct Hr2).
        destruct Hr2 as (x & rest & ->). cbn [app]. now eexists; eexists.
    + (* a drawn initial vector *)
      rewrite Hset in Hrun.
      pose proof (lanczos_solve_trace _ _ _ _ _ _ _ _ Hrun)
        as (apps2 & Hem2 & Hall2 & Hin2 & Hg2 & Hr2).
      exists [Rand n],
             (apps2 ++ [Eigsh (solver_args num_eigenthings which
                                 max_steps tol
                                 (mk_locals n nv scipy_op
                                    (maybe_fp16 v fp16)))]).
      conj.
      * unfold emitted in *. rewrite Hem2, Hev, Hem01.
        rewrite <- !app_assoc. reflexivity.
      * exact Hall1.
      * intros x out Hx. apply in_app_or in Hx as [Hx|Hx]; [|eauto].
        apply in_app_or in Hx as [Hx|[Heq|[]]]; [eauto|discriminate].
      * right. conj; auto. rewrite Hg2, Hg. now rewrite Hg1.
      * right. eexists. eexists. eexists.
        conj; [reflexivity|exact Hall2|exact Hset].
      * destruct r as [[| | |s|s]|]; auto; try (now destruct Hr2).
        destruct Hr2 as (x & rest & ->). cbn [app]. now eexists; eexists.
Qed.

(** *** numpy's random state is only ever drawn from, never consulted *)

Lemma scipy_apply_set_np_random (g : Rng) (x : ndarray) (w : world St) :
  _scipy_apply operator use_gpu fp16 x (set_np_random g w)
  = (fst (_scipy_apply operator use_gpu fp16 x w),
     set_np_random g (snd (_scipy_apply operator use_gpu fp16 x w))).
Proof.
  rewrite !scipy_apply_run. cbv zeta. cbn [set_np_random w_operator].
  destruct (apply operator (w_operator w)
              (to_operator_form use_gpu fp16 x)) as [[e|out] st];
    reflexivity.
Qed.

Lemma run_client_set_np_random {R} (t : client R) (g : Rng) :
  forall w : world St,
    run_client (_scipy_apply operator use_gpu fp16) t (set_np_random g w)
    = (fst (run_client (_scipy_apply operator use_gpu fp16) t w),
       set_np_random g
         (snd (run_client (_scipy_apply operator use_gpu fp16) t w))).
Proof.
  induction t as [r0|e0|x next IH]; intros w; simpl; try reflexivity.
  unfold bind. rewrite scipy_apply_set_np_random.
  destruct (_scipy_apply operator use_gpu fp16 x w) as [[e|y] w1];
    cbn [fst snd]; [reflexivity|apply IH].
Qed.

Lemma eigsh_set_np_random (args : eigsh_args) (g : Rng) (w : world St) :
  eigsh (_scipy_apply operator use_gpu fp16) args (set_np_random g w)
  = (fst (eigsh (_scipy_apply operator use_gpu fp16) args w),
     set_np_random g
       (snd (eigsh (_scipy_apply operator use_gpu fp16) args w))).
Proof.
  unfold eigsh. cbn [set_np_random w_arpack].
  destruct (scipy_eigsh args (w_arpack w)) as [t s].
  exact (run_client_set_np_random t g (log (Eigsh args) (set_arpack s w))).
Qed.

Lemma lanczos_solve_set_np_random (num_eigenthings : Z) (which : string)
    (max_steps : Z) (tol : scalar) (l : locals) (g : Rng) (w : world St) :
  lanczos_solve operator num_eigenthings which max_steps tol use_gpu fp16 l
    (set_np_random g w)
  = (fst (lanczos_solve operator num_eigenthings which max_steps tol
            use_gpu fp16 l w),
     set_np_random g
       (snd (lanczos_solve operator num_eigenthings which max_steps tol
               use_gpu fp16 l w))).
Proof.
  unfold lanczos_solve, bind. rewrite eigsh_set_np_random.
  destruct (eigsh (_scipy_apply operator use_gpu fp16) _ w)
    as [[e|[eigenvals eigenvecs]] w1]; reflexivity.
Qed.

(** The solver is called with nothing of the local [init_vec]. *)
Lemma lanczos_solve_locals (num_eigenthings : Z) (which : string)
    (max_steps : Z) (tol : scalar) (l l' : locals) (w : world St) :
  l_scipy_op l = l_scipy_op l' ->
  l_num_lanczos_vectors l = l_num_lanczos_vectors l' ->
  lanczos_solve operator num_eigenthings which max_steps tol use_gpu fp16
    l w
  = lanczos_solve operator num_eigenthings which max_steps tol use_gpu fp16
      l' w.
Proof. intros Hop Hnv. unfold lanczos_solve. now rewrite Hop, Hnv. Qed.

(** The setup from two states that differ in numpy's random state only:
    the same exception, or locals that agree but for [init_vec]; and end
    states that again differ in numpy's random state only. *)
Lemma lanczos_setup_set_np_random (num_eigenthings : Z)
    (num_lanczos_vectors : option Z) (init_vec : option (ndarray + tensor))
    (g : Rng) (w : world St) :
  let a := lanczos_setup operator num_eigenthings num_lanczos_vectors
             init_vec use_gpu fp16 w in
  let b := lanczos_setup operator num_eigenthings num_lanczos_vectors
             init_vec use_gpu fp16 (set_np_random g w) in
  match fst a, fst b with
  | inl e, inl e' => e = e'
  | inr l, inr l' =>
      l_scipy_op l = l_scipy_op l' /\
      l_num_lanczos_vectors l = l_num_lanczos_vectors l'
  | _, _ => False
  end /\
  exists g', snd b = set_np_random g' (snd a).
Proof.
  cbv zeta.
  destruct (size_of (size operator (w_operator w))) as [e|n] eqn:Hsize.
  - unfold lanczos_setup, bind, operator_size.
    cbn [set_np_random w_operator]. rewrite Hsize. cbn [fst snd].
    split; [reflexivity|]. now exists g.
  - rewrite (lanczos_setup_run _ _ _ n w Hsize).
    rewrite (lanczos_setup_run _ _ _ n (set_np_random g w) Hsize).
    cbv zeta. unfold ScipyLinearOperator.
    set (nv := vectors_in_use num_eigenthings n num_lanczos_vectors).
    set (w0 := if nv <? 2 * num_eigenthings
               then log (Warned advisory) w else w).
    assert (Hw0 : (if nv <? 2 * num_eigenthings
                   then log (Warned advisory) (set_np_random g w)
                   else set_np_random g w) = set_np_random g w0).
    { unfold w0. destruct (nv <? 2 * num_eigenthings); reflexivity. }
    rewrite Hw0, run_client_set_np_random.
    destruct (run_client (_scipy_apply operator use_gpu fp16)
                (scipy_LinearOperator (n, n)) w0) as [[e|scipy_op] w1];
      cbn [fst snd].
    + split; [reflexivity|]. now exists g.
    + destruct init_vec as [[a|t]|]; cbn [ret fst snd].
      * split; [split; reflexivity|]. now exists g.
      * split; [split; reflexivity|]. now exists g.
      * unfold np_random_rand. cbn [set_np_random w_np_random].
        destruct (n <? 0); cbn [fst snd].
        -- split; [reflexivity|]. now exists g.
        -- destruct (draw (Z.to_nat n) g) as [xs' g1'].
           destruct (draw (Z.to_nat n) (w_np_random w1)) as [xs g1].
           cbn [fst snd]. split; [split; reflexivity|]. now exists g1'.
Qed.

End Traces.

(** ** Further properties of [lanczos] and of its callback *)

Section Further.
Context `{Runtime} {St : Type}.

(** A call on an operator whose size lookup raises [e] is that exception
    and nothing else. *)
Lemma lanczos_unusable_run (operator : Operator St)
    (num_eigenthings : Z) (which : string) (max_steps : Z) (tol : scalar)
    (num_lanczos_vectors : option Z) (init_vec : option (ndarray + tensor))
    (use_gpu fp16 : bool) (w : world St) (e : exn) :
  size_of (size operator (w_operator w)) = inl e ->
  lanczos operator num_eigenthings which max_steps tol num_lanczos_vectors
    init_vec use_gpu fp16 w = (inl e, w) /\
  lanczos_setup operator num_eigenthings num_lanczos_vectors
    init_vec use_gpu fp16 w = (inl e, w).
Proof.
  intros Hsize. unfold lanczos, lanczos_setup, bind, operator_size.
  rewrite Hsize. split; reflexivity.
Qed.

Lemma only_applied_no_draw (evs : list event) :
  forallb is_applied evs = true -> rand_draws evs = [].
Proof. intros Hall. now destruct (only_applied_silent evs Hall) as (_ & _ & ?). Qed.

Lemma only_applied_no_call (evs : list event) :
  forallb is_applied evs = true -> solver_calls evs = [].
Proof. intros Hall. now destruct (only_applied_silent evs Hall) as (_ & ? & _). Qed.

Lemma advisory_part_silent (b : bool) :
  solver_calls (if b then [Warned advisory] else []) = [] /\
  rand_draws (if b then [Warned advisory] else []) = [] /\
  forall x out, ~ In (Applied x out) (if b then [Warned advisory] else []).
Proof.
  destruct b; conj; try reflexivity; intros x out Hin.
  - destruct Hin as [Heq|[]]. discriminate.
  - destruct Hin.
Qed.


(** X1: [operator.size] is read once, at the start, and only for its
    integer value or its first element: two operators with the same
    [apply] whose sizes give the same number there get the same call,
    whatever else the sizes hold (further elements of a sequence) and
    whatever they become later. *)
Theorem lanczos_size_read_once (sz sz' : St -> size_attr)
    (ap : St -> tensor -> (string + tensor) * St)
    (num_eigenthings : Z) (which : string) (max_steps : Z) (tol : scalar)
    (num_lanczos_vectors : option Z) (init_vec : option (ndarray + tensor))
    (use_gpu fp16 : bool) (w : world St) :
  size_of (sz (w_operator w)) = size_of (sz' (w_operator w)) ->
  lanczos (mk_Operator St sz ap) num_eigenthings which max_steps tol
    num_lanczos_vectors init_vec use_gpu fp16 w
  = lanczos (mk_Operator St sz' ap) num_eigenthings which max_steps tol
      num_lanczos_vectors init_vec use_gpu fp16 w.
Proof.
  intros Hsize. unfold lanczos, lanczos_setup, bind, operator_size.
  cbn [size]. rewrite Hsize. reflexivity.
Qed.

(** X3: the call never consults numpy's random state.  From two states
    that differ in it only, [lanczos] returns the same eigenpairs or
    raises the same exception, and leaves the same operator, the same
    solver state and the same events, with or without [init_vec]. *)
Theorem lanczos_ignores_np_random (operator : Operator St)
    (num_eigenthings : Z) (which : string) (max_steps : Z) (tol : scalar)
    (num_lanczos_vectors : option Z) (init_vec : option (ndarray + tensor))
    (use_gpu fp16 : bool) (w : world St) (g : Rng) :
  let a := lanczos operator num_eigenthings which max_steps tol
             num_lanczos_vectors init_vec use_gpu fp16 w in
  let b := lanczos operator num_eigenthings which max_steps tol
             num_lanczos_vectors init_vec use_gpu fp16
             (set_np_random g w) in
  fst b = fst a /\
  w_operator (snd b) = w_operator (snd a) /\
  w_arpack (snd b) = w_arpack (snd a) /\
  w_events (snd b) = w_events (snd a).
Proof.
  cbv zeta. rewrite !lanczos_run.
  pose proof (lanczos_setup_set_np_random operator use_gpu fp16
                num_eigenthings num_lanczos_vectors init_vec g w)
    as (Hres & g' & Hw). cbv zeta in Hres, Hw.
  destruct (lanczos_setup operator num_eigenthings num_lanczos_vectors
              init_vec use_gpu fp16 w) as [[e|l] w1];
    destruct (lanczos_setup operator num_eigenthings num_lanczos_vectors
                init_vec use_gpu fp16 (set_np_random g w))
      as [[e'|l'] w1'];
    cbn [fst snd] in Hres, Hw; try contradiction; subst w1'.
  - subst e'. conj; reflexivity.
  - destruct Hres as (Hop & Hnv).
    rewrite lanczos_solve_set_np_random.
    rewrite (lanczos_solve_locals operator use_gpu fp16 _ _ _ _ l' l w1);
      [|congruence|congruence].
    conj; reflexivity.
Qed.

(** X4: a call makes at most one call of [np.random.rand].  Either it
    makes none and numpy's random state is as before, or [init_vec] is
    [None], the size [n] is not negative, the one call is
    [np.random.rand(n)] and the state has advanced by [n] numbers; and
    the latter is the case whenever the setup returns without
    [init_vec]. *)
Theorem lanczos_np_random_draws (operator : Operator St)
    (num_eigenthings : Z) (which : string) (max_steps : Z) (tol : scalar)
    (num_lanczos_vectors : option Z) (init_vec : option (ndarray + tensor))
    (use_gpu fp16 : bool) (w : world St) r w' :
  lanczos operator num_eigenthings which max_steps tol num_lanczos_vectors
    init_vec use_gpu fp16 w = (r, w') ->
  exists evs,
    emitted w w' evs /\
    ((rand_draws evs = [] /\ w_np_random w' = w_np_random w) \/
     (init_vec = None /\
      exists n, size_of (size operator (w_operator w)) = inr n /\
                0 <= n /\ rand_draws evs = [n] /\
                w_np_random w'
                = snd (draw (Z.to_nat n) (w_np_random w)))) /\
    (init_vec = None ->
     forall l w1,
       lanczos_setup operator num_eigenthings num_lanczos_vectors init_vec
         use_gpu fp16 w = (inr l, w1) ->
       rand_draws evs = [l_size l]).
Proof.
  intros Hrun.
  destruct (size_of (size operator (w_operator w))) as [e0|n] eqn:Hsize.
  - destruct (lanczos_unusable_run operator num_eigenthings which max_steps
                tol num_lanczos_vectors init_vec use_gpu fp16 w e0 Hsize)
      as (Hrun' & Hset).
    rewrite Hrun' in Hrun. inversion Hrun; subst r w'.
    exists []. conj; [reflexivity| |].
    + left. split; reflexivity.
    + intros _ l w1 Hl. rewrite Hset in Hl. discriminate.
  - pose proof (lanczos_trace operator use_gpu fp16 _ _ _ _ _ _ _ _ _ _
                  Hsize Hrun)
      as (apps1 & rnd & sol & Hem & Hall1 & _ & Hrnd & Hsol & _).
    assert (Hdraws :
      rand_draws (sol ++ rnd ++ apps1 ++
        (if vectors_in_use num_eigenthings n num_lanczos_vectors
            <? 2 * num_eigenthings then [Warned advisory] else []))
      = rand_draws rnd).
    { rewrite !rand_draws_app, (only_applied_no_draw _ Hall1).
      destruct (advisory_part_silent
                  (vectors_in_use num_eigenthings n num_lanczos_vectors
                   <? 2 * num_eigenthings)) as (_ & -> & _).
      rewrite !app_nil_r.
      destruct Hsol as [(-> & _)|(apps2 & l & w1 & -> & Hall2 & _)];
        [reflexivity|].
      rewrite rand_draws_app, (only_applied_no_draw _ Hall2). reflexivity. }
    eexists. split; [exact Hem|]. rewrite Hdraws. split.
    + destruct Hrnd as [(-> & Hg & _)|(-> & Hiv & Hpos & Hg)].
      * left. split; [reflexivity|exact Hg].
      * right. split; [exact Hiv|]. exists n. conj; auto.
    + intros Hiv l w1 Hl.
      pose proof (lanczos_setup_spec operator use_gpu fp16 _ _ _ _ _ _ _
                    Hsize Hl) as (_ & _ & _ & _ & _ & _ & _ & _ & Hloc).
      destruct (Hloc l eq_refl) as (-> & _).
      destruct Hrnd as [(_ & _ & Hnone)|(-> & _)]; [|reflexivity].
      specialize (Hnone Hiv).
      destruct Hsol as [(_ & e & _ & Habs)|(apps2 & l2 & w2 & Heq & _)].
      * rewrite Habs in Hl. discriminate.
      * rewrite Hnone in Heq. destruct apps2; discriminate.
Qed.

Lemma to_operator_form_placed (use_gpu fp16 : bool) (a : ndarray) :
  t_device (to_operator_form use_gpu fp16 a)
  = (if use_gpu then cuda_device else cpu_device) /\
  (fp16 = true -> t_dtype (to_operator_form use_gpu fp16 a) = float16) /\
  (fp16 = false -> t_dtype (to_operator_form use_gpu fp16 a) = a_dtype a) /\
  List.length (t_data (to_operator_form use_gpu fp16 a))
  = List.length (a_data a).
Proof.
  destruct use_gpu, fp16; unfold to_operator_form; simpl; conj;
    try reflexivity; try discriminate; apply length_map.
Qed.

(** X5: every tensor [operator.apply] is called on during a call of
    [lanczos] is the converted form of a host array: it is on the
    accelerator exactly when [use_gpu] is set, and it is a float16
    tensor when [fp16] is set. *)
Theorem lanczos_operator_inputs (operator : Operator St)
    (num_eigenthings : Z) (which : string) (max_steps : Z) (tol : scalar)
    (num_lanczos_vectors : option Z) (init_vec : option (ndarray + tensor))
    (use_gpu fp16 : bool) (w : world St) r w' :
  lanczos operator num_eigenthings which max_steps tol num_lanczos_vectors
    init_vec use_gpu fp16 w = (r, w') ->
  exists evs,
    emitted w w' evs /\
    forall x out, In (Applied x out) evs ->
      (exists a, x = to_operator_form use_gpu fp16 a) /\
      t_device x = (if use_gpu then cuda_device else cpu_device) /\
      (fp16 = true -> t_dtype x = float16).
Proof.
  intros Hrun.
  destruct (size_of (size operator (w_operator w))) as [e0|n] eqn:Hsize.
  - destruct (lanczos_unusable_run operator num_eigenthings which max_steps
                tol num_lanczos_vectors init_vec use_gpu fp16 w e0 Hsize)
      as (Hrun' & _).
    rewrite Hrun' in Hrun. inversion Hrun; subst r w'.
    exists []. split; [reflexivity|]. intros x out [].
  - pose proof (lanczos_trace operator use_gpu fp16 _ _ _ _ _ _ _ _ _ _
                  Hsize Hrun)
      as (apps1 & rnd & sol & Hem & _ & Hin & Hrnd & _).
    eexists. split; [exact Hem|]. intros x out Hx.
    assert (Ha : exists a, x = to_operator_form use_gpu fp16 a).
    { apply (Hin x out). apply in_app_or in Hx as [Hx|Hx];
        [apply in_or_app; now left|].
      apply in_app_or in Hx as [Hx|Hx].
      - destruct Hrnd as [(-> & _)|(-> & _)]; [destruct Hx|].
        destruct Hx as [Heq|[]]. discriminate.
      - apply in_app_or in Hx as [Hx|Hx];
          [apply in_or_app; now right|].
        destruct (advisory_part_silent
                    (vectors_in_use num_eigenthings n num_lanczos_vectors
                     <? 2 * num_eigenthings)) as (_ & _ & Hno).
        now apply Hno in Hx. }
    split; [exact Ha|]. destruct Ha as (a & ->).
    destruct (to_operator_form_placed use_gpu fp16 a) as (Hd & Ht & _).
    split; assumption.
Qed.

(** X6: a call of [lanczos] calls [eigsh] at most once, and not at all
    exactly when its setup raised.  The call of [eigsh] has
    [k=num_eigenthings], [which], [maxiter=max_steps] and [tol] as they
    were given, no [v0], and [return_eigenvectors=True]; a supplied
    [num_lanczos_vectors] is its [ncv] as it is, whatever the size, and a
    derived one is at most [size - 1] and at most
    [2 * num_eigenthings]. *)
Theorem lanczos_solver_call (operator : Operator St)
    (num_eigenthings : Z) (which_ : string) (max_steps : Z) (tol_ : scalar)
    (num_lanczos_vectors : option Z) (init_vec : option (ndarray + tensor))
    (use_gpu fp16 : bool) (w : world St) r w' :
  lanczos operator num_eigenthings which_ max_steps tol_ num_lanczos_vectors
    init_vec use_gpu fp16 w = (r, w') ->
  exists evs,
    emitted w w' evs /\
    (List.length (solver_calls evs) <= 1)%nat /\
    (solver_calls evs = [] <->
     exists e, lanczos_setup operator num_eigenthings num_lanczos_vectors
                 init_vec use_gpu fp16 w = (inl e, w')) /\
    (forall a, In a (solver_calls evs) ->
       k a = num_eigenthings /\ which a = which_ /\
       maxiter a = max_steps /\ tol a = tol_ /\
       v0 a = None /\ return_eigenvectors a = true /\
       match num_lanczos_vectors with
       | Some v => ncv a = v
       | None =>
           exists n, size_of (size operator (w_operator w)) = inr n /\
                     ncv a = Z.min (2 * num_eigenthings) (n - 1) /\
                     ncv a <= n - 1 /\ ncv a <= 2 * num_eigenthings
       end).
Proof.
  intros Hrun.
  destruct (size_of (size operator (w_operator w))) as [e0|n] eqn:Hsize.
  - destruct (lanczos_unusable_run operator num_eigenthings which_
                max_steps tol_ num_lanczos_vectors init_vec use_gpu fp16
                w e0 Hsize) as (Hrun' & Hset).
    rewrite Hrun' in Hrun. inversion Hrun; subst r w'.
    exists []. conj; [reflexivity|simpl; lia| |intros a []].
    split; [intros _; now exists e0|reflexivity].
  - pose proof (lanczos_trace operator use_gpu fp16 _ _ _ _ _ _ _ _ _ _
                  Hsize Hrun)
      as (apps1 & rnd & sol & Hem & Hall1 & _ & Hrnd & Hsol & _).
    assert (Hcalls :
      solver_calls (sol ++ rnd ++ apps1 ++
        (if vectors_in_use num_eigenthings n num_lanczos_vectors
            <? 2 * num_eigenthings then [Warned advisory] else []))
      = solver_calls sol).
    { rewrite !solver_calls_app, (only_applied_no_call _ Hall1).
      destruct (advisory_part_silent
                  (vectors_in_use num_eigenthings n num_lanczos_vectors
                   <? 2 * num_eigenthings)) as (-> & _).
      destruct Hrnd as [(-> & _)|(-> & _)]; simpl;
        now rewrite !app_nil_r. }
    eexists. split; [exact Hem|]. rewrite Hcalls.
    destruct Hsol as [(-> & e & _ & Hset)|(apps2 & l & w1 & -> & Hall2 & Hset)].
    + conj; [simpl; lia| |intros a []].
      split; [intros _; now exists e|reflexivity].
    + rewrite solver_calls_app, (only_applied_no_call _ Hall2). simpl.
      conj; [lia| |].
      * split; [discriminate|]. intros (e & He). rewrite Hset in He.
        discriminate.
      * intros a [<-|[]].
        pose proof (lanczos_setup_spec operator use_gpu fp16 _ _ _ _ _ _ _
                      Hsize Hset) as (_ & _ & _ & _ & _ & _ & _ & _ & Hloc).
        destruct (Hloc l eq_refl) as (_ & Hnv & _).
        simpl. conj; auto. rewrite Hnv.
        destruct num_lanczos_vectors as [v|]; simpl; [reflexivity|].
        exists n. conj; auto; lia.
Qed.

(** X7: transposing twice gives back the matrix: the solver's matrix of
    eigenvectors is the transpose of what [lanczos] returns. *)
Theorem T_involutive (n k : nat) (m : ndarray2) :
  has_shape n k m -> T (T m) = m.
Proof.
  intros Hm. pose proof (T_T_rows n k m Hm) as Hrows.
  destruct Hm as (Hsh & _). destruct m as [sh rows].
  unfold T in *. cbn [m_shape m_rows fst snd] in *. subst sh.
  cbn [fst snd] in *. now rewrite Hrows.
Qed.

(** X8: one call of the callback that returns.  The operator was applied
    once, to a tensor with as many entries as the solver's array, and the
    array handed back has as many entries as the operator's result: the
    conversions of either direction keep the length, with or without
    [fp16] and [use_gpu]. *)
Theorem scipy_apply_lengths (operator : Operator St) (use_gpu fp16 : bool)
    (x : ndarray) (w : world St) (y : ndarray) (w' : world St) :
  _scipy_apply operator use_gpu fp16 x w = (inr y, w') ->
  exists out,
    w_events w'
    = Applied (to_operator_form use_gpu fp16 x) (inr out) :: w_events w /\
    List.length (t_data (to_operator_form use_gpu fp16 x))
    = List.length (a_data x) /\
    List.length (a_data y) = List.length (t_data out) /\
    w_np_random w' = w_np_random w /\
    w_arpack w' = w_arpack w.
Proof.
  intros Hrun. rewrite scipy_apply_run in Hrun. cbv zeta in Hrun.
  destruct (apply operator (w_operator w)
              (to_operator_form use_gpu fp16 x)) as [[e|out] st];
    cbn [fst snd] in Hrun; inversion Hrun; subst y w'.
  exists out. conj; try reflexivity.
  - apply to_operator_form_placed.
  - unfold to_host_form. destruct fp16; simpl;
      [apply length_map|reflexivity].
Qed.

(** X9: without [init_vec], a negative size never reaches the solver:
    the call raises, [eigsh] is not called, and nothing is drawn from
    numpy's random state. *)
Theorem lanczos_negative_size (operator : Operator St)
    (num_eigenthings : Z) (which : string) (max_steps : Z) (tol : scalar)
    (num_lanczos_vectors : option Z) (use_gpu fp16 : bool)
    (n : Z) (w : world St) r w' :
  size_of (size operator (w_operator w)) = inr n ->
  n < 0 ->
  lanczos operator num_eigenthings which max_steps tol num_lanczos_vectors
    None use_gpu fp16 w = (r, w') ->
  (exists e, r = inl e) /\
  w_np_random w' = w_np_random w /\
  exists evs,
    emitted w w' evs /\ solver_calls evs = [] /\ rand_draws evs = [].
Proof.
  intros Hsize Hneg Hrun.
  pose proof (lanczos_trace operator use_gpu fp16 _ _ _ _ _ _ _ _ _ _
                Hsize Hrun)
    as (apps1 & rnd & sol & Hem & Hall1 & _ & Hrnd & Hsol & _).
  destruct Hrnd as [(-> & Hg & Hnone)|(_ & _ & Hpos & _)]; [|lia].
  rewrite (Hnone eq_refl) in *.
  destruct Hsol as [(_ & e & -> & _)|(apps2 & l & w1 & Heq & _)];
    [|destruct apps2; discriminate].
  conj; [now exists e|exact Hg|].
  eexists. split; [exact Hem|]. cbn [app].
  rewrite solver_calls_app, rand_draws_app.
  rewrite (only_applied_no_call _ Hall1), (only_applied_no_draw _ Hall1).
  destruct (advisory_part_silent
              (vectors_in_use num_eigenthings n num_lanczos_vectors
               <? 2 * num_eigenthings)) as (-> & -> & _).
  split; reflexivity.
Qed.

(** X10: the order of what a call on an operator of usable size does.
    First the advisory, if the count calls for it; then the products the
    constructor of the scipy operator asks for; then the one draw, if
    any; then the call of [eigsh]; then the products the solver asks for.
    No product is asked for before the advisory, and none between the
    draw and the call of [eigsh]. *)
Theorem lanczos_effects_order (operator : Operator St)
    (num_eigenthings : Z) (which : string) (max_steps : Z) (tol : scalar)
    (num_lanczos_vectors : option Z) (init_vec : option (ndarray + tensor))
    (use_gpu fp16 : bool) (n : Z) (w : world St) r w' :
  size_of (size operator (w_operator w)) = inr n ->
  lanczos operator num_eigenthings which max_steps tol num_lanczos_vectors
    init_vec use_gpu fp16 w = (r, w') ->
  exists by_constructor draw_ by_solver,
    emitted w w'
      (by_solver ++ draw_ ++ by_constructor ++
       (if vectors_in_use num_eigenthings n num_lanczos_vectors
           <? 2 * num_eigenthings
        then [Warned advisory] else [])) /\
    forallb is_applied by_constructor = true /\
    (draw_ = [] \/ draw_ = [Rand n]) /\
    (by_solver = [] \/
     exists products a,
       by_solver = products ++ [Eigsh a] /\
       forallb is_applied products = true).
Proof.
  intros Hsize Hrun.
  pose proof (lanczos_trace operator use_gpu fp16 _ _ _ _ _ _ _ _ _ _
                Hsize Hrun)
    as (apps1 & rnd & sol & Hem & Hall1 & _ & Hrnd & Hsol & _).
  exists apps1, rnd, sol. conj; [exact Hem|exact Hall1| |].
  - destruct Hrnd as [(-> & _)|(-> & _)]; auto.
  - destruct Hsol as [(-> & _)|(apps2 & l & w1 & -> & Hall2 & _)]; auto.
    right. now eexists; eexists.
Qed.

(** X11: whenever [lanczos] returns, its setup had returned and the one
    call of [eigsh] made from there returned: the eigenvalues are that
    call's eigenvalues as they are, the eigenvectors the transpose of its
    matrix, and no call of [operator.apply] raised on the way. *)
Theorem lanczos_result_is_solver_result (operator : Operator St)
    (num_eigenthings : Z) (which : string) (max_steps : Z) (tol : scalar)
    (num_lanczos_vectors : option Z) (init_vec : option (ndarray + tensor))
    (use_gpu fp16 : bool) (w : world St)
    (eigenvals : list scalar) (eigenvecs : ndarray2) (w' : world St) :
  lanczos operator num_eigenthings which max_steps tol num_lanczos_vectors
    init_vec use_gpu fp16 w = (inr (eigenvals, eigenvecs), w') ->
  exists l w1 v,
    lanczos_setup operator num_eigenthings num_lanczos_vectors init_vec
      use_gpu fp16 w = (inr l, w1) /\
    eigsh (_scipy_apply operator use_gpu fp16)
      (solver_args num_eigenthings which max_steps tol l) w1
    = (inr (eigenvals, v), w') /\
    eigenvecs = T v /\
    exists evs,
      emitted w w' evs /\
      solver_calls evs
      = [solver_args num_eigenthings which max_steps tol l] /\
      forall x out, In (Applied x out) evs -> exists y, out = inr y.
Proof.
  intros Hrun. pose proof Hrun as Hrun0. rewrite lanczos_run in Hrun.
  destruct (lanczos_setup operator num_eigenthings num_lanczos_vectors
              init_vec use_gpu fp16 w) as [[e|l] w1] eqn:Hset;
    [discriminate|].
  destruct (lanczos_solve_spec operator use_gpu fp16 _ _ _ _ _ _ _ _ Hrun)
    as (_ & _ & _ & _ & _ & _ & Hret).
  destruct (Hret eigenvals eigenvecs eq_refl) as (v & Hv & Heig).
  exists l, w1, v. conj; [reflexivity|exact Heig|exact Hv|].
  destruct (size_of (size operator (w_operator w))) as [e0|n] eqn:Hsize.
  - destruct (lanczos_unusable_run operator num_eigenthings which max_steps
                tol num_lanczos_vectors init_vec use_gpu fp16 w e0 Hsize)
      as (_ & Habs).
    rewrite Habs in Hset. discriminate.
  - destruct (lanczos_spec operator use_gpu fp16 _ _ _ _ _ _ _ _ _ _
                Hsize Hrun0)
      as (evs & Hem & _ & _ & Hexn & _ & Hreach & _).
    exists evs. conj; [exact Hem|exact (Hreach l w1 Hset)|].
    intros x out Hin. destruct out as [s|y]; [|now exists y].
    apply Hexn in Hin as (Habs & _). discriminate.
Qed.

End Further.

(** ** The driver evaluated on the small runtime *)

#[local] Existing Instance Toy.numeric.
#[local] Existing Instance Toy.runtime.

(** The call of section 8 of the spec warns once and returns five
    eigenvalues and five eigenvectors of length 8. *)
Example run_advised_returns :
  warnings (w_events (snd Toy.run_advised)) = [advisory] /\
  exists eigenvals eigenvecs,
    fst Toy.run_advised = inr (eigenvals, eigenvecs) /\
    List.length eigenvals = 5%nat /\ has_shape 5 8 eigenvecs.
Proof.
  split; [reflexivity|].
  eexists. eexists. split; [vm_compute; reflexivity|].
  split; [reflexivity|].
  unfold has_shape. simpl. conj; try reflexivity. repeat constructor.
Qed.

(** The operator that counts its calls has been called twice in that
    call (once by the constructor of the scipy operator, once by the
    solver): its counter is its own doing. *)
Example run_advised_counts :
  w_operator (snd Toy.run_advised) = 2%nat /\
  apply_calls (w_events (snd Toy.run_advised)) = 2%nat.
Proof. split; reflexivity. Qed.

(** An operator that raises does so in the first product asked of it:
    the call ends with its exception after one call of [apply], before
    the solver is reached. *)
Example run_failing_raises :
  fst Toy.run_failing = inl (OperatorException "size mismatch") /\
  apply_calls (w_events (snd Toy.run_failing)) = 1%nat /\
  solver_calls (w_events (snd Toy.run_failing)) = [].
Proof. conj; reflexivity. Qed.

(** Under [fp16] a round trip keeps only what 16 bits hold (here,
    multiples of 8). *)
Example round_trip_fp16 :
  to_host_form true
    (to_operator_form false true (mk_ndarray float64 [3; 8; 20]))
  = mk_ndarray float16 [0; 8; 16].
Proof. reflexivity. Qed.

(** C10, the code at a failing input.  Whatever the runtime and the
    operator, the value of a supplied [init_vec] does not reach the
    solver: any two supplied vectors give the same call.  And two calls
    with the same arguments, the same supplied [init_vec] and the same
    stateless operator, from states that differ only in the solver's
    hidden state: neither draws from numpy's random state, both call
    [eigsh] without [v0], and they return different eigenvalues and
    eigenvectors. *)
Theorem supplied_init_vec_not_forwarded :
  (forall (N : Numeric) (R : @Runtime N) (St : Type)
          (operator : @Operator N St) (num_eigenthings : Z)
          (which : string) (max_steps : Z) (tol : @scalar N)
          (num_lanczos_vectors : option Z)
          (v v' : @ndarray N + @tensor N) (use_gpu fp16 : bool)
          (w : @world N R St),
     @lanczos N R St operator num_eigenthings which max_steps tol
       num_lanczos_vectors (Some v) use_gpu fp16 w
     = @lanczos N R St operator num_eigenthings which max_steps tol
         num_lanczos_vectors (Some v') use_gpu fp16 w) /\
  w_np_random (snd (Toy.run_supplied 1)) = 5 /\
  rand_draws (w_events (snd (Toy.run_supplied 1))) = [] /\
  map v0 (solver_calls (w_events (snd (Toy.run_supplied 1)))) = [None] /\
  map v0 (solver_calls (w_events (snd (Toy.run_supplied 2)))) = [None] /\
  fst (Toy.run_supplied 1)
  = inr ([2], mk_ndarray2 (1%nat, 3%nat) [[2; 4; 6]]) /\
  fst (Toy.run_supplied 2)
  = inr ([4], mk_ndarray2 (1%nat, 3%nat) [[4; 6; 8]]).
Proof.
  split.
  - intros N R St operator num_eigenthings which max_steps tol
           num_lanczos_vectors v v' use_gpu fp16 w.
    apply lanczos_init_vec_unused.
  - vm_compute. conj; reflexivity.
Qed.

(** An operator whose [size] is not subscriptable: the call raises
    before anything else happens. *)
Lemma lanczos_invalid_operator_shape_witness :
  exists e w' evs,
    lanczos (Toy.scaled_identity SizeOther 2) 10 "LM" 20 0 None None
      false false (Toy.world0 0%nat 5 1) = (inl e, w') /\
    InvalidOperatorShape e = true /\
    w' = Toy.world0 0%nat 5 1 /\
    emitted (Toy.world0 0%nat 5 1) w' evs /\
    apply_calls evs = 0%nat /\
    solver_calls evs = [].
Proof.
  apply (lanczos_invalid_operator_shape (Toy.scaled_identity SizeOther 2)).
  reflexivity.
Defined.

(** Twice the identity of size 3, one eigenpair: the solver's 3-by-1
    matrix comes back as one row of length 3. *)
Lemma lanczos_returns_transposed_witness :
  lanczos (Toy.scaled_identity (SizeSeq [3; 3]) 2) 1 "LM" 20 0 None None
    false false (Toy.world0 0%nat 5 1)
  = (inr ([2], T (mk_ndarray2 (3%nat, 1%nat) [[2]; [4]; [6]])),
     snd (lanczos (Toy.scaled_identity (SizeSeq [3; 3]) 2) 1 "LM" 20 0
            None None false false (Toy.world0 0%nat 5 1))) /\
  List.length [2] = 1%nat /\
  has_shape 1 3 (T (mk_ndarray2 (3%nat, 1%nat) [[2]; [4]; [6]])) /\
  (forall i, (i < 1)%nat ->
     nth_error (m_rows (T (mk_ndarray2 (3%nat, 1%nat) [[2]; [4]; [6]]))) i
     = Some (column i [[2]; [4]; [6]])) /\
  (forall i j,
     entry (T (mk_ndarray2 (3%nat, 1%nat) [[2]; [4]; [6]])) i j
     = entry (mk_ndarray2 (3%nat, 1%nat) [[2]; [4]; [6]]) j i).
Proof.
  eapply (lanczos_returns_transposed
            (Toy.scaled_identity (SizeSeq [3; 3]) 2) 1 "LM" 20 0 None None
            false false (Toy.world0 0%nat 5 1)).
  - vm_compute. reflexivity.
  - vm_compute. reflexivity.
  - reflexivity.
  - unfold has_shape. simpl. conj; try reflexivity.
    repeat constructor.
Defined.


(** An operator that raises "size mismatch": the callback, a scipy run
    and [lanczos] all end with that exception. *)
Lemma operator_exception_propagates_witness :
  let x := Toy.x123 in
  let w := Toy.world0 0%nat 5 1 in
  let w1 := log (Applied (to_operator_form false false x)
                   (inl "size mismatch"%string))
              (set_operator 1%nat w) in
  _scipy_apply (Toy.failing (SizeInt 3)) false false x w
  = (inl (OperatorException "size mismatch"), w1) /\
  (forall R (next : ndarray -> client R),
     run_client (_scipy_apply (Toy.failing (SizeInt 3)) false false)
       (Matvec x next) w
     = (inl (OperatorException "size mismatch"), w1)) /\
  (forall num_eigenthings which max_steps tol num_lanczos_vectors init_vec
          (w0 : world nat) r w',
     lanczos (Toy.failing (SizeInt 3)) num_eigenthings which max_steps tol
       num_lanczos_vectors init_vec false false w0 = (r, w') ->
     exists evs,
       emitted w0 w' evs /\
       forall x' e', In (Applied x' (inl e')) evs ->
                     r = inl (OperatorException e') /\
                     exists rest, evs = Applied x' (inl e') :: rest).
Proof.
  apply (operator_exception_propagates (Toy.failing (SizeInt 3)) false
           false Toy.x123 (Toy.world0 0%nat 5 1)
           "size mismatch" 1%nat).
  reflexivity.
Defined.


(** An operator without fields that [apply] writes is the same after the
    call. *)
Lemma lanczos_frames_operator_witness :
  exists evs,
    emitted (Toy.world0 tt 5 1) (snd (Toy.run_supplied 1)) evs /\
    w_operator (snd (Toy.run_supplied 1))
    = replay (Toy.stateless_identity (SizeInt 3) 2) (applied_inputs evs) tt /\
    (forall P : unit -> Prop,
       (forall st x,
          P st ->
          P (snd (apply (Toy.stateless_identity (SizeInt 3) 2) st x))) ->
       P tt -> P (w_operator (snd (Toy.run_supplied 1)))) /\
    ((forall st x,
        snd (apply (Toy.stateless_identity (SizeInt 3) 2) st x) = st) ->
     w_operator (snd (Toy.run_supplied 1)) = tt).
Proof.
  apply (lanczos_frames_operator
           (Toy.stateless_identity (SizeInt 3) 2) 1 "LM" 20 0 None
           (Some Toy.e1) false false (Toy.world0 tt 5 1)
           (fst (Toy.run_supplied 1))).
  vm_compute. reflexivity.
Defined.

(** Size 8 and five eigenpairs: the derived count 7 is below 10 and the
    call warns. *)
Lemma lanczos_default_warns_witness :
  vectors_in_use 5 8 None = 8 - 1 /\
  8 - 1 < 2 * 5 /\
  exists evs,
    emitted (Toy.world0 0%nat 5 1) (snd Toy.run_default) evs /\
    warnings evs = [advisory].
Proof.
  apply (lanczos_default_warns
           (Toy.scaled_identity (SizeInt 8) 2) 5 "LM" 20 0 None
           false false 8 (Toy.world0 0%nat 5 1)
           (fst Toy.run_default) (snd Toy.run_default)).
  - reflexivity.
  - lia.
  - vm_compute. reflexivity.
Defined.

(** The size (3, 5), gone after the first product, against the plain
    size 3. *)
Lemma lanczos_size_read_once_witness :
  lanczos (mk_Operator nat Toy.size_then_none Toy.double) 1 "LM" 20 0
    None None false false (Toy.world0 0%nat 5 1)
  = lanczos (mk_Operator nat (fun _ => SizeInt 3) Toy.double) 1 "LM" 20 0
      None None false false (Toy.world0 0%nat 5 1).
Proof.
  apply (lanczos_size_read_once Toy.size_then_none (fun _ => SizeInt 3)
           Toy.double).
  reflexivity.
Defined.

(** Size 8 without initial vector: one draw of eight numbers. *)
Lemma lanczos_np_random_draws_witness :
  exists evs,
    emitted (Toy.world0 0%nat 5 1) (snd Toy.run_default) evs /\
    ((rand_draws evs = [] /\ w_np_random (snd Toy.run_default) = 5) \/
     (@None (ndarray + tensor) = None /\
      exists n, size_of (SizeInt 8) = inr n /\
                0 <= n /\ rand_draws evs = [n] /\
                w_np_random (snd Toy.run_default)
                = snd (draw (Z.to_nat n) 5))) /\
    (@None (ndarray + tensor) = None ->
     forall l w1,
       lanczos_setup (Toy.scaled_identity (SizeInt 8) 2) 5 None None
         false false (Toy.world0 0%nat 5 1) = (inr l, w1) ->
       rand_draws evs = [l_size l]).
Proof.
  apply (lanczos_np_random_draws
           (Toy.scaled_identity (SizeInt 8) 2) 5 "LM" 20 0 None None
           false false (Toy.world0 0%nat 5 1)
           (fst Toy.run_default) (snd Toy.run_default)).
  vm_compute. reflexivity.
Defined.

(** With [use_gpu] and [fp16] every input of the operator is a float16
    tensor on the accelerator. *)
Lemma lanczos_operator_inputs_witness :
  exists evs,
    emitted (Toy.world0 0%nat 5 1) (snd Toy.run_gpu_fp16) evs /\
    forall x out, In (Applied x out) evs ->
      (exists a, x = to_operator_form true true a) /\
      t_device x = cuda_device /\
      (true = true -> t_dtype x = float16).
Proof.
  apply (lanczos_operator_inputs
           (Toy.scaled_identity (SizeInt 3) 2) 1 "LM" 20 0 None None
           true true (Toy.world0 0%nat 5 1)
           (fst Toy.run_gpu_fp16) (snd Toy.run_gpu_fp16)).
  vm_compute. reflexivity.
Defined.

(** Five eigenpairs with six supplied basis vectors: one call of the
    solver, with [ncv = 6]. *)
Lemma lanczos_solver_call_witness :
  exists evs,
    emitted (Toy.world0 0%nat 5 1) (snd Toy.run_advised) evs /\
    (List.length (solver_calls evs) <= 1)%nat /\
    (solver_calls evs = [] <->
     exists e, lanczos_setup (Toy.scaled_identity (SizeSeq [8; 8]) 2) 5
                 (Some 6) None false false (Toy.world0 0%nat 5 1)
               = (inl e, snd Toy.run_advised)) /\
    (forall a, In a (solver_calls evs) ->
       k a = 5 /\ which a = "LM"%string /\
       maxiter a = 20 /\ tol a = 0 /\
       v0 a = None /\ return_eigenvectors a = true /\ ncv a = 6).
Proof.
  apply (lanczos_solver_call
           (Toy.scaled_identity (SizeSeq [8; 8]) 2) 5 "LM" 20 0 (Some 6)
           None false false (Toy.world0 0%nat 5 1)
           (fst Toy.run_advised) (snd Toy.run_advised)).
  vm_compute. reflexivity.
Defined.

(** A 3-by-1 matrix. *)
Lemma T_involutive_witness :
  T (T (mk_ndarray2 (3%nat, 1%nat) [[2]; [4]; [6]]))
  = mk_ndarray2 (3%nat, 1%nat) [[2]; [4]; [6]].
Proof.
  apply (T_involutive 3 1).
  unfold has_shape. simpl. conj; try reflexivity. repeat constructor.
Defined.

(** One product on the accelerator in 16 bits: three entries in, three
    entries out. *)
Lemma scipy_apply_lengths_witness :
  let r := _scipy_apply (Toy.scaled_identity (SizeInt 3) 2) true true
             Toy.x8 (Toy.world0 0%nat 5 1) in
  exists out,
    w_events (snd r)
    = Applied (to_operator_form true true Toy.x8) (inr out) :: [] /\
    List.length (t_data (to_operator_form true true Toy.x8))
    = List.length (a_data Toy.x8) /\
    List.length (a_data Toy.y8) = List.length (t_data out) /\
    w_np_random (snd r) = 5 /\
    w_arpack (snd r) = 1.
Proof.
  apply (scipy_apply_lengths (Toy.scaled_identity (SizeInt 3) 2) true true
           Toy.x8 (Toy.world0 0%nat 5 1) Toy.y8).
  vm_compute. reflexivity.
Defined.

(** Size -2 without initial vector: an exception and no call of the
    solver. *)
Lemma lanczos_negative_size_witness :
  (exists e, fst Toy.run_negative = inl e) /\
  w_np_random (snd Toy.run_negative) = 5 /\
  exists evs,
    emitted (Toy.world0 0%nat 5 1) (snd Toy.run_negative) evs /\
    solver_calls evs = [] /\ rand_draws evs = [].
Proof.
  apply (lanczos_negative_size
           (Toy.scaled_identity (SizeInt (-2)) 2) 1 "LM" 20 0 None
           false false (-2) (Toy.world0 0%nat 5 1)
           (fst Toy.run_negative) (snd Toy.run_negative)).
  - reflexivity.
  - lia.
  - vm_compute. reflexivity.
Defined.

(** The advised call: the advisory, one product for the constructor, one
    draw, the call of the solver, one product for the solver. *)
Lemma lanczos_effects_order_witness :
  exists by_constructor draw_ by_solver,
    emitted (Toy.world0 0%nat 5 1) (snd Toy.run_advised)
      (by_solver ++ draw_ ++ by_constructor ++
       (if vectors_in_use 5 8 (Some 6) <? 2 * 5
        then [Warned advisory] else [])) /\
    forallb is_applied by_constructor = true /\
    (draw_ = [] \/ draw_ = [Rand 8]) /\
    (by_solver = [] \/
     exists products a,
       by_solver = products ++ [Eigsh a] /\
       forallb is_applied products = true).
Proof.
  apply (lanczos_effects_order
           (Toy.scaled_identity (SizeSeq [8; 8]) 2) 5 "LM" 20 0 (Some 6)
           None false false 8 (Toy.world0 0%nat 5 1)
           (fst Toy.run_advised) (snd Toy.run_advised)).
  - reflexivity.
  - vm_compute. reflexivity.
Defined.

(** The advised call returns what its one call of the solver returned,
    transposed. *)
Lemma lanczos_result_is_solver_result_witness :
  exists eigenvals eigenvecs,
    fst Toy.run_advised = inr (eigenvals, eigenvecs) /\
    exists l w1 v,
      lanczos_setup (Toy.scaled_identity (SizeSeq [8; 8]) 2) 5 (Some 6)
        None false false (Toy.world0 0%nat 5 1) = (inr l, w1) /\
      eigsh (_scipy_apply (Toy.scaled_identity (SizeSeq [8; 8]) 2)
               false false)
        (solver_args 5 "LM" 20 0 l) w1
      = (inr (eigenvals, v), snd Toy.run_advised) /\
      eigenvecs = T v /\
      exists evs,
        emitted (Toy.world0 0%nat 5 1) (snd Toy.run_advised) evs /\
        solver_calls evs = [solver_args 5 "LM" 20 0 l] /\
        forall x out, In (Applied x out) evs -> exists y, out = inr y.
Proof.
  eexists. eexists. split.
  - vm_compute. reflexivity.
  - apply (lanczos_result_is_solver_result
             (Toy.scaled_identity (SizeSeq [8; 8]) 2) 5 "LM" 20 0 (Some 6)
             None false false (Toy.world0 0%nat 5 1)).
    vm_compute. reflexivity.
Defined.

